(** * scripts/update_data.py: the merge-and-persist price pipeline

    A shallow embedding of [scripts/update_data.py] and the properties its
    specification states about it.

    Conventions of the embedding.
    - A Python [str] is a Rocq [string] of ASCII characters (dates, ticker
      symbols and decimal numerals are); [<] on strings is the
      lexicographic order on characters.
    - A Python [float] is a binary64 number, [spec_float] at precision 53
      and maximal exponent 1024, in its canonical form (the form every
      conversion below produces).  Float objects carry the place where
      they were created, because Python compares the values of two dicts
      with an identity test first and IEEE equality second.
    - A Python dict is a [gmap]; a loop over its items visits them in the
      enumeration order of the map (Python: insertion order), which only
      decides which of several faulty entries raises first.
    - The provider response is untyped JSON ([json]), as [r.json()] returns
      it.  The configuration and the persisted document have the types the
      script's annotations and the file formats give them.
    - A run of [main] is a function of the [world] it starts in; it yields
      the outcome, the provider calls, pauses and writes it performed, and
      the persisted file it leaves.  The lines [log] prints are not part of
      the model. *)

From Stdlib Require Import ZArith String Ascii List Bool.
From Stdlib Require Import Floats.SpecFloat.
From Stdlib Require OrderedTypeEx.
From stdpp Require Import gmap strings list fin_maps.

Local Open Scope Z_scope.

(** ** Floats *)

Abbreviation float := spec_float.

Definition prec : Z := 53.
Definition emax : Z := 1024.

Definition is_finite (f : float) : bool :=
  match f with
  | S754_zero _ | S754_finite _ _ _ => true
  | S754_infinity _ | S754_nan => false
  end.

(** ** JSON values *)

#[warnings="-register-all"] Inductive json :=
| JNull
| JBool (b : bool)
| JInt (n : Z)
| JFloat (f : float)
| JStr (s : string)
| JList (l : list json)
| JDict (m : gmap string json).

(** ** Exceptions and results

    Every error the script raises itself is a [RuntimeError]; [message] is
    the text it carries, with the values interpolated into it. *)

Inductive message :=
| MissingConfigFile
| MissingApiKey
| NoTickers
| AvError (sym : string) (detail : json)
| AvThrottled (sym : string) (note : json)
| AvUnexpected (sym : string) (keys : list string).

Inductive exn :=
| RuntimeError (msg : message)
| ValueError
| TypeError
| AttributeError
| OverflowError
| KeyError (key : string)
| RequestException.

Inductive result (A : Type) :=
| Ok (a : A)
| Raise (e : exn).
Arguments Ok {A} a.
Arguments Raise {A} e.

#[global] Instance result_ret : MRet result := fun A a => Ok a.
#[global] Instance result_bind : MBind result := fun A B k r =>
  match r with
  | Ok a => k a
  | Raise e => Raise e
  end.

(** ** Rounding to a float *)

(** [m * 10 ^ e10] for [m > 0], rounded to the nearest binary64 number,
    ties to even; beyond the largest double it is an infinity. *)
Definition round_decimal (neg : bool) (m : positive) (e10 : Z) : float :=
  if 0 <=? e10 then binary_round prec emax neg (Z.to_pos (Zpos m * 10 ^ e10)) 0
  else
    let '(q, e, l) := SFdiv_core_binary prec emax (Zpos m) 0 (10 ^ (- e10)) 0 in
    binary_round_aux prec emax neg q e l.

Definition decimal_to_float (neg : bool) (m : Z) (e10 : Z) : float :=
  match m with
  | Zpos p => round_decimal neg p e10
  | _ => S754_zero neg
  end.

(** [float(n)] for a Python int: [OverflowError] when [n] rounds beyond the
    largest double. *)
Definition float_of_int (n : Z) : result float :=
  match binary_normalize prec emax n 0 false with
  | S754_infinity _ => Raise OverflowError
  | f => Ok f
  end.

(** ** [float(s)] for a string *)

Definition is_digit (c : ascii) : bool :=
  let n := nat_of_ascii c in (48 <=? n)%nat && (n <=? 57)%nat.

Definition digit_value (c : ascii) : Z := Z.of_nat (nat_of_ascii c) - 48.

(** [Py_ISSPACE]: space, tab, newline, vertical tab, form feed, return. *)
Definition is_space (c : ascii) : bool :=
  let n := nat_of_ascii c in ((9 <=? n)%nat && (n <=? 13)%nat) || (n =? 32)%nat.

Definition lower (c : ascii) : ascii :=
  let n := nat_of_ascii c in
  if (65 <=? n)%nat && (n <=? 90)%nat then ascii_of_nat (n + 32) else c.

Definition ascii_eqb (a b : ascii) : bool := Ascii.eqb a b.

(** Underscores may only sit between two digits; they are removed. *)
Fixpoint remove_underscores (prev : ascii) (s : list ascii) : option (list ascii) :=
  match s with
  | [] => if ascii_eqb prev "_" then None else Some []
  | c :: rest =>
      if ascii_eqb c "_" then
        if is_digit prev then remove_underscores c rest else None
      else if ascii_eqb prev "_" && negb (is_digit c) then None
      else cons c <$> remove_underscores c rest
  end.

Fixpoint lstrip (space : ascii -> bool) (s : list ascii) : list ascii :=
  match s with
  | c :: rest => if space c then lstrip space rest else s
  | [] => []
  end.

Definition strip (space : ascii -> bool) (s : list ascii) : list ascii :=
  rev (lstrip space (rev (lstrip space s))).

(** [Some rest] when [s] starts with [pat], letter case ignored. *)
Fixpoint match_nocase (pat s : list ascii) : option (list ascii) :=
  match pat, s with
  | [], _ => Some s
  | p :: pat', c :: s' => if ascii_eqb p (lower c) then match_nocase pat' s' else None
  | _ :: _, [] => None
  end.

Definition parse_sign (s : list ascii) : bool * list ascii :=
  match s with
  | c :: rest =>
      if ascii_eqb c "-" then (true, rest)
      else if ascii_eqb c "+" then (false, rest)
      else (false, s)
  | [] => (false, s)
  end.

(** [inf], [infinity] and [nan], with an optional sign. *)
Definition parse_inf_or_nan (s : list ascii) : option (float * list ascii) :=
  let '(neg, s1) := parse_sign s in
  match match_nocase (list_ascii_of_string "inf") s1 with
  | Some s2 =>
      match match_nocase (list_ascii_of_string "inity") s2 with
      | Some s3 => Some (S754_infinity neg, s3)
      | None => Some (S754_infinity neg, s2)
      end
  | None =>
      match match_nocase (list_ascii_of_string "nan") s1 with
      | Some s2 => Some (S754_nan, s2)
      | None => None
      end
  end.

(** Reads a run of digits: the number read after [acc], how many digits,
    and the rest. *)
Fixpoint take_digits (s : list ascii) (acc : Z) (n : Z) : Z * Z * list ascii :=
  match s with
  | c :: rest =>
      if is_digit c then take_digits rest (10 * acc + digit_value c) (n + 1)
      else (acc, n, s)
  | [] => (acc, n, s)
  end.

(** The exponent part; when no digit follows the [e] nothing is consumed. *)
Definition parse_exponent (s : list ascii) : Z * list ascii :=
  match s with
  | c :: rest =>
      if ascii_eqb (lower c) "e" then
        let '(eneg, s1) := parse_sign rest in
        let '(ev, en, s2) := take_digits s1 0 0 in
        if en =? 0 then (0, s) else (if eneg then - ev else ev, s2)
      else (0, s)
  | [] => (0, s)
  end.

(** A decimal numeral: sign, digits with an optional point, exponent. *)
Definition parse_decimal (s : list ascii) : option (float * list ascii) :=
  let '(neg, s1) := parse_sign s in
  let '(ip, ni, s2) := take_digits s1 0 0 in
  let '(m, nf, s3) :=
    match s2 with
    | c :: rest => if ascii_eqb c "." then take_digits rest ip 0 else (ip, 0, s2)
    | [] => (ip, 0, s2)
    end in
  if ni + nf =? 0 then None
  else
    let '(e, s4) := parse_exponent s3 in
    Some (decimal_to_float neg m (e - nf), s4).

(** [float(s)]: [None] stands for [ValueError]. *)
Definition float_of_string (s : string) : option float :=
  match remove_underscores "000" (list_ascii_of_string s) with
  | None => None
  | Some chars =>
      let body := strip is_space chars in
      let parsed :=
        match parse_inf_or_nan body with
        | Some r => Some r
        | None => parse_decimal body
        end in
      match parsed with
      | Some (f, []) => Some f
      | _ => None
      end
  end.

(** ** Float objects

    [float(x)] makes a new object.  An object is named by the place that
    made it: the load of the persisted file (ticker and date) or the
    extraction of the response to a provider call (call number and date). *)

Inductive obj_id :=
| OnLoad (symbol date : string)
| OnFetch (call : nat) (date : string).

#[global] Instance obj_id_eq_dec : EqDecision obj_id.
Proof. solve_decision. Defined.

Record pyfloat := PyFloat { fid : obj_id; fval : float }.

(** [a == b] as Python's containers evaluate it: the same object, or equal
    numbers (a NaN equals no number, the two zeros are equal). *)
Definition obj_eq (a b : pyfloat) : bool :=
  bool_decide (fid a = fid b) || SFeqb (fval a) (fval b).

(** ** Dicts *)

Abbreviation Series := (gmap string pyfloat).

(** [key in d] *)
Definition dict_in {V} (key : string) (d : gmap string V) : bool :=
  match d !! key with Some _ => true | None => false end.

(** [d[key]] *)
Definition dict_item {V} (d : gmap string V) (key : string) : result V :=
  match d !! key with Some v => Ok v | None => Raise (KeyError key) end.

(** [d.get(key, dflt)] *)
Definition dict_get {V} (d : gmap string V) (key : string) (dflt : V) : V :=
  default dflt (d !! key).

(** [x.items()] and [x.get(key)] on a value that may not be a dict; Python's
    [None] is [JNull]. *)
Definition json_items (x : json) : result (list (string * json)) :=
  match x with
  | JDict m => Ok (map_to_list m)
  | _ => Raise AttributeError
  end.

Definition json_get (x : json) (key : string) : result json :=
  match x with
  | JDict m => Ok (dict_get m key JNull)
  | _ => Raise AttributeError
  end.

(** [float(adj)], the new object being named [site].  (Given a float,
    Python returns the argument itself; the response holds the only other
    reference to it, so the name it gets here makes no difference.) *)
Definition py_float (site : obj_id) (adj : json) : result pyfloat :=
  match adj with
  | JStr s =>
      match float_of_string s with
      | Some f => Ok (PyFloat site f)
      | None => Raise ValueError
      end
  | JFloat f => Ok (PyFloat site f)
  | JInt n => f ← float_of_int n; Ok (PyFloat site f)
  | JBool b => f ← float_of_int (if b then 1 else 0); Ok (PyFloat site f)
  | JNull | JList _ | JDict _ => Raise TypeError
  end.

(** ** [extract_adjusted_close_series] *)

Definition TIME_SERIES_KEY : string := "Time Series (Daily)".
Definition ADJUSTED_CLOSE_KEY : string := "5. adjusted close".

(** The body of the [for] loop, on the items still to visit. *)
Fixpoint extract_items (call : nat) (earliest_date : string)
    (items : list (string * json)) (out : Series) : result Series :=
  match items with
  | [] => Ok out
  | (d, fields) :: rest =>
      if String.ltb d earliest_date then extract_items call earliest_date rest out
      else
        adj ← json_get fields ADJUSTED_CLOSE_KEY;
        match adj with
        | JNull => extract_items call earliest_date rest out
        | _ =>
            match py_float (OnFetch call d) adj with
            | Ok v => extract_items call earliest_date rest (<[d := v]> out)
            | Raise ValueError => extract_items call earliest_date rest out
            | Raise e => Raise e
            end
        end
  end.

Definition extract_adjusted_close_series (call : nat) (av_json : gmap string json)
    (earliest_date : string) : result Series :=
  series ← dict_item av_json TIME_SERIES_KEY;
  items ← json_items series;
  extract_items call earliest_date items ∅.

(** ** [merge_series] *)

(** [x or {}] *)
Definition or_empty (x : Series) : Series :=
  if bool_decide (x = ∅) then ∅ else x.

(** [d.update(other)]: the entries of [other] are written over [d]. *)
Definition dict_update (d other : Series) : Series := other ∪ d.

Definition merge_series (existing incoming : Series) : Series :=
  let merged := or_empty existing in
  dict_update merged (or_empty incoming).

(** [a == b] on two dicts: as many keys, and every key of [a] is in [b]
    with an equal value. *)
Definition dict_eq (a b : Series) : bool :=
  bool_decide (size a = size b) &&
  forallb (fun '(k, va) =>
             match b !! k with
             | Some vb => obj_eq va vb
             | None => false
             end) (map_to_list a).

Definition dict_ne (a b : Series) : bool := negb (dict_eq a b).

(** ** Configuration, persisted document and the world of a run *)

Record ticker := { symbol : string }.

(** [config/predictions.json]: the three sections the script reads, each
    absent or present. *)
Record config := {
  cfg_data_window : option (gmap string string);
  cfg_tickers : option (list ticker);
  cfg_data_source : option (gmap string json) }.

(** [data/prices.json]: the [series] key, when present, maps a ticker to
    its series; [fields] holds every other key.  [V] is [float] for the
    file and [pyfloat] for the document in memory. *)
Record document (V : Type) := {
  series : option (gmap string (gmap string V));
  fields : gmap string json }.
Arguments series {V} _.
Arguments fields {V} _.

Record AvConfig := { api_key : string; outputsize : string }.

(** The query of one request and what comes back: a JSON object, or a
    failure of the transport ([requests.get], [raise_for_status] or
    [r.json()] raising). *)
Record params := {
  p_function : string;
  p_symbol : string;
  p_outputsize : string;
  p_apikey : string }.

Inductive response :=
| HttpFailure
| HttpJson (j : gmap string json).

Inductive event :=
| EvFetch (sym : string)
| EvSleep (seconds : Z)
| EvWrite (doc : document float).

Record world := {
  config_file : option config;
  environ_api_key : option string;
  prices_file : option (document float);
  (** the answer to the [call]-th request of the run *)
  provider : nat -> params -> response;
  (** the formatted UTC time read after the given events of the run *)
  utc_clock : list event -> string }.

Record run := {
  outcome : result Z;
  trace : list event;
  prices_after : option (document float) }.

(** [load_json] and [dump_json] on the persisted document: loading makes
    one float object per stored value. *)
Definition load_series (sym : string) (s : gmap string float) : Series :=
  map_imap (fun d v => Some (PyFloat (OnLoad sym d) v)) s.

Definition load_all (m : gmap string (gmap string float)) : gmap string Series :=
  map_imap (fun sym s => Some (load_series sym s)) m.

Definition load_json (f : document float) : document pyfloat :=
  {| series := load_all <$> series f; fields := fields f |}.

Definition dump_series (s : Series) : gmap string float := fval <$> s.

Definition dump_all (m : gmap string Series) : gmap string (gmap string float) :=
  dump_series <$> m.

Definition dump_json (obj : document pyfloat) : document float :=
  {| series := dump_all <$> series obj; fields := fields obj |}.

(** [s.strip()] on a [str]: the characters the loop of [float_of_string]
    skips and the four separators 28 to 31. *)
Definition is_str_space (c : ascii) : bool :=
  let n := nat_of_ascii c in is_space c || ((28 <=? n)%nat && (n <=? 31)%nat).

Definition str_strip (s : string) : string :=
  string_of_list_ascii (strip is_str_space (list_ascii_of_string s)).

(** ** [fetch_daily_adjusted] *)

Definition request_params (sym : string) (cfg : AvConfig) : params :=
  {| p_function := "TIME_SERIES_DAILY_ADJUSTED";
     p_symbol := sym;
     p_outputsize := outputsize cfg;
     p_apikey := api_key cfg |}.

Definition fetch_daily_adjusted (w : world) (call : nat) (sym : string) (cfg : AvConfig)
    : result (gmap string json) :=
  match provider w call (request_params sym cfg) with
  | HttpFailure => Raise RequestException
  | HttpJson j =>
      if dict_in "Error Message" j then
        detail ← dict_item j "Error Message"; Raise (RuntimeError (AvError sym detail))
      else if dict_in "Note" j then
        note ← dict_item j "Note"; Raise (RuntimeError (AvThrottled sym note))
      else if negb (dict_in TIME_SERIES_KEY j) then
        Raise (RuntimeError (AvUnexpected sym (map_to_list j).*1))
      else Ok j
  end.

(** ** [main] *)

Definition PAUSE_SECONDS : Z := 13.

(** The variables the loop of [main] updates. *)
Record loop_state := {
  current_series : gmap string Series;
  updated_any : bool }.

(** One iteration of the loop: the events it performs and the state it
    leaves, or the exception that ends the run. *)
Definition process_ticker (w : world) (av_cfg : AvConfig) (earliest_date : string)
    (i : nat) (sym : string) (st : loop_state) : list event * result loop_state :=
  match fetch_daily_adjusted w i sym av_cfg with
  | Raise e => ([EvFetch sym], Raise e)
  | Ok av_json =>
      match extract_adjusted_close_series i av_json earliest_date with
      | Raise e => ([EvFetch sym], Raise e)
      | Ok incoming =>
          let existing := dict_get (current_series st) sym ∅ in
          let merged := merge_series existing incoming in
          let st' :=
            if dict_ne merged existing then
              {| current_series := <[sym := merged]> (current_series st);
                 updated_any := true |}
            else st in
          ([EvFetch sym; EvSleep PAUSE_SECONDS], Ok st')
      end
  end.

(** [for i, sym in enumerate(tickers, start=i)] *)
Fixpoint for_tickers (w : world) (av_cfg : AvConfig) (earliest_date : string)
    (i : nat) (tickers : list string) (st : loop_state) : list event * result loop_state :=
  match tickers with
  | [] => ([], Ok st)
  | sym :: rest =>
      match process_ticker w av_cfg earliest_date i sym st with
      | (evs, Raise e) => (evs, Raise e)
      | (evs, Ok st') =>
          let '(evs', r) := for_tickers w av_cfg earliest_date (S i) rest st' in
          (evs ++ evs', r)
      end
  end.

Definition abort (w : world) (evs : list event) (e : exn) : run :=
  {| outcome := Raise e; trace := evs; prices_after := prices_file w |}.

(** Lines 127 to 132: the series and the metadata are set on the document
    in memory. *)
Definition stamp (cfg : config) (earliest_date now : string)
    (current : document pyfloat) (cs : gmap string Series) : document pyfloat :=
  let data_source := default ∅ (cfg_data_source cfg) in
  {| series := Some cs;
     fields :=
       <["earliest_date" := JStr earliest_date]>
       (<["field" := dict_get data_source "field" (JStr "5. adjusted close")]>
       (<["endpoint" := dict_get data_source "endpoint" (JStr "TIME_SERIES_DAILY_ADJUSTED")]>
       (<["provider" := dict_get data_source "provider" (JStr "Alpha Vantage")]>
       (<["generated_utc" := JStr now]> (fields current))))) |}.

(** The values [main] computes before its loop. *)
Definition av_key_of (w : world) : string :=
  str_strip (default "" (environ_api_key w)).

Definition earliest_date_of (cfg : config) : string :=
  dict_get (default ∅ (cfg_data_window cfg)) "earliest_date" "2025-07-01".

Definition tickers_of (cfg : config) : list string :=
  symbol <$> default [] (cfg_tickers cfg).

Definition current_of (w : world) : document pyfloat :=
  match prices_file w with
  | Some f => load_json f
  | None => {| series := Some ∅; fields := ∅ |}
  end.

Definition av_config_of (w : world) : AvConfig :=
  {| api_key := av_key_of w; outputsize := "full" |}.

Definition initial_state (w : world) : loop_state :=
  {| current_series := default ∅ (series (current_of w)); updated_any := false |}.

(** Lines 127 to 145: the document is stamped, then written or left. *)
Definition persist (w : world) (cfg : config) (evs : list event) (st : loop_state) : run :=
  let current :=
    stamp cfg (earliest_date_of cfg) (utc_clock w evs) (current_of w) (current_series st) in
  let written := dump_json current in
  if updated_any st then
    {| outcome := Ok 0; trace := evs ++ [EvWrite written]; prices_after := Some written |}
  else
    match prices_file w with
    | None =>
        {| outcome := Ok 0; trace := evs ++ [EvWrite written];
           prices_after := Some written |}
    | Some f => {| outcome := Ok 0; trace := evs; prices_after := Some f |}
    end.

Definition main (w : world) : run :=
  match config_file w with
  | None => abort w [] (RuntimeError MissingConfigFile)
  | Some cfg =>
      if String.eqb (av_key_of w) "" then abort w [] (RuntimeError MissingApiKey)
      else
        let earliest_date := earliest_date_of cfg in
        let tickers := tickers_of cfg in
        match tickers with
        | [] => abort w [] (RuntimeError NoTickers)
        | _ :: _ =>
            match for_tickers w (av_config_of w) earliest_date 1 tickers (initial_state w) with
            | (evs, Raise e) => abort w evs e
            | (evs, Ok st) => persist w cfg evs st
            end
        end
  end.

(** The error kinds of the specification.  The script has one exception
    class for them; the kind is the message it raises. *)
Inductive error_kind := ConfigError | ProviderError | RateLimitError | SchemaError.

Definition kind_of (e : exn) : option error_kind :=
  match e with
  | RuntimeError (MissingConfigFile | MissingApiKey | NoTickers) => Some ConfigError
  | RuntimeError (AvError _ _) => Some ProviderError
  | RuntimeError (AvThrottled _ _) => Some RateLimitError
  | RuntimeError (AvUnexpected _ _) => Some SchemaError
  | _ => None
  end.

(** * Notions used in the statements *)

(** ** Extraction *)

(** What the loop of the extractor makes of one entry: [kept] when the
    date is not before the cutoff and [float] accepts the adjusted-close
    field of the bundle. *)
Definition kept (call : nat) (cutoff d : string) (fields : json) (v : pyfloat) : Prop :=
  String.ltb d cutoff = false ∧
  ∃ m adj, fields = JDict m ∧ m !! ADJUSTED_CLOSE_KEY = Some adj ∧ adj ≠ JNull ∧
           py_float (OnFetch call d) adj = Ok v.

(** The field is missing, null, or a string [float] rejects. *)
Definition unusable (call : nat) (d : string) (fields : json) : Prop :=
  ∃ m, fields = JDict m ∧
       (m !! ADJUSTED_CLOSE_KEY = None ∨ m !! ADJUSTED_CLOSE_KEY = Some JNull ∨
        ∃ adj, m !! ADJUSTED_CLOSE_KEY = Some adj ∧
               py_float (OnFetch call d) adj = Raise ValueError).

(** The values [float] converts without [TypeError] or [OverflowError]. *)
Definition convertible (adj : json) : bool :=
  match adj with
  | JList _ | JDict _ => false
  | JInt n => match float_of_int n with Ok _ => true | Raise _ => false end
  | JNull | JBool _ | JFloat _ | JStr _ => true
  end.

(** A bundle the loop handles without raising, and a response all of
    whose bundles from the cutoff on are such. *)
Definition bundle_ok (fields : json) : bool :=
  match fields with
  | JDict m => convertible (dict_get m ADJUSTED_CLOSE_KEY JNull)
  | _ => false
  end.

Definition well_formed (cutoff : string) (av_json : gmap string json) : bool :=
  match av_json !! TIME_SERIES_KEY with
  | Some (JDict series) =>
      forallb (fun '(d, fields) => String.ltb d cutoff || bundle_ok fields)
              (map_to_list series)
  | _ => false
  end.

(** ** The loop and the runs of [main] *)

(** The events of the iterations that ran to their end. *)
Definition paced (tickers : list string) : list event :=
  flat_map (fun sym => [EvFetch sym; EvSleep PAUSE_SECONDS]) tickers.

(** The value of [merged != existing] in an iteration for [sym] that starts
    in state [st] as the [i]-th of the run. *)
Definition step_changes (w : world) (av_cfg : AvConfig) (earliest_date : string)
    (i : nat) (sym : string) (st : loop_state) : Prop :=
  ∃ av_json incoming,
    fetch_daily_adjusted w i sym av_cfg = Ok av_json ∧
    extract_adjusted_close_series i av_json earliest_date = Ok incoming ∧
    dict_ne (merge_series (dict_get (current_series st) sym ∅) incoming)
            (dict_get (current_series st) sym ∅) = true.

(** The run wrote the dataset file. *)
Definition wrote (r : run) : Prop := ∃ doc, EvWrite doc ∈ trace r.

(** In the iteration for [sym] that follows the iterations for [pre],
    [merged != existing] holds. *)
Definition changed_at (w : world) (cfg : config) (pre : list string) (sym : string) : Prop :=
  ∃ st,
    for_tickers w (av_config_of w) (earliest_date_of cfg) 1 pre (initial_state w)
      = (paced pre, Ok st) ∧
    step_changes w (av_config_of w) (earliest_date_of cfg) (S (length pre)) sym st.

(** The pauses among the events, in order. *)
Definition pauses (evs : list event) : list Z :=
  flat_map (fun e => match e with EvSleep s => [s] | _ => [] end) evs.

(** The indicator the validation of a response stops at, if any. *)
Definition failure_kind (j : gmap string json) : option error_kind :=
  if dict_in "Error Message" j then Some ProviderError
  else if dict_in "Note" j then Some RateLimitError
  else if negb (dict_in TIME_SERIES_KEY j) then Some SchemaError
  else None.

(** ** Sample inputs *)

(** Sample responses. *)
Definition bundle_of (adj : json) : json := JDict {[ ADJUSTED_CLOSE_KEY := adj ]}.

Definition response_of (series : gmap string json) : gmap string json :=
  {[ TIME_SERIES_KEY := JDict series ]}.

Definition sample_response : gmap string json :=
  response_of (<["2025-06-30" := bundle_of (JStr "9.75")]>
              (<["2025-07-01" := bundle_of (JStr "10.0")]>
              (<["2025-07-02" := bundle_of (JStr "10.5")]>
              (<["2025-07-03" := bundle_of (JStr "n/a")]>
              (<["2025-07-04" := JDict ∅]> ∅))))).

Definition list_field_response : gmap string json :=
  response_of {[ "2025-07-01" := bundle_of (JList []) ]}.

Definition nan_response : gmap string json :=
  response_of {[ "2025-07-01" := bundle_of (JStr "nan") ]}.

(** Sample runs. *)
Definition sample_config : config :=
  {| cfg_data_window := Some {[ "earliest_date" := "2025-07-01" ]};
     cfg_tickers := Some [ {| symbol := "SPY" |}; {| symbol := "QQQ" |} ];
     cfg_data_source := Some {[ "provider" := JStr "Alpha Vantage (free)" ]} |}.

Definition error_response : gmap string json :=
  {[ "Error Message" := JStr "Invalid API call." ]}.

Definition sample_world : world :=
  {| config_file := Some sample_config;
     environ_api_key := Some " demo ";
     prices_file := None;
     provider := fun _ _ => HttpJson sample_response;
     utc_clock := fun _ => "2025-07-05 06:00:00Z" |}.

(** The provider answers the second request with an error. *)
Definition failing_world : world :=
  {| config_file := Some sample_config;
     environ_api_key := Some " demo ";
     prices_file := None;
     provider := fun call _ =>
       if (call =? 1)%nat then HttpJson sample_response else HttpJson error_response;
     utc_clock := fun _ => "2025-07-05 06:00:00Z" |}.

Definition no_tickers_world : world :=
  {| config_file := Some {| cfg_data_window := None; cfg_tickers := Some [];
                            cfg_data_source := None |};
     environ_api_key := Some "demo";
     prices_file := None;
     provider := fun _ _ => HttpJson sample_response;
     utc_clock := fun _ => "2025-07-05 06:00:00Z" |}.

(** A first run to which the provider sends only a day before the cutoff. *)
Definition stale_response : gmap string json :=
  response_of {[ "2025-06-30" := bundle_of (JStr "9.75") ]}.

Definition quiet_world : world :=
  {| config_file := Some {| cfg_data_window := None;
                            cfg_tickers := Some [ {| symbol := "SPY" |} ];
                            cfg_data_source := None |};
     environ_api_key := Some "demo";
     prices_file := None;
     provider := fun _ _ => HttpJson stale_response;
     utc_clock := fun _ => "2025-07-05 06:00:00Z" |}.

(** A later run: the file holds one point of SPY, and the provider again
    sends only a day before the cutoff. *)
Definition settled_world : world :=
  {| config_file := config_file quiet_world;
     environ_api_key := Some "demo";
     prices_file :=
       Some {| series :=
                 Some {[ "SPY" := {[ "2025-07-01" :=
                                       S754_finite false 5629499534213120 (-49) ]} ]};
               fields := {[ "generated_utc" := JStr "2025-07-02 06:00:00Z" ]} |};
     provider := fun _ _ => HttpJson stale_response;
     utc_clock := fun _ => "2025-07-05 06:00:00Z" |}.

(** The document the run in [sample_world] leaves. *)
Definition sample_written : document float :=
  default {| series := None; fields := ∅ |} (prices_after (main sample_world)).

(** ** Notions of the further properties *)

Definition is_nan (v : float) : bool :=
  match v with S754_nan => true | _ => false end.

(** No series of the document holds a NaN. *)
Definition nan_free (f : document float) : bool :=
  forallb (fun '(_, x) => forallb (fun '(_, v) => negb (is_nan v)) (map_to_list x))
          (map_to_list (default ∅ (series f))).

(** Sample inputs of the further properties. *)

(** A provider that answers only requests for the full history. *)
Definition strict_world : world :=
  {| config_file := Some sample_config;
     environ_api_key := Some " demo ";
     prices_file := None;
     provider := fun _ q =>
       if String.eqb (p_outputsize q) "full" then HttpJson sample_response
       else HttpFailure;
     utc_clock := fun _ => "2025-07-05 06:00:00Z" |}.

(** A file with an old point of SPY, a ticker that is no longer configured
    and a key of its own; SPY alone is configured. *)
Definition growing_world : world :=
  {| config_file := Some {| cfg_data_window := None;
                            cfg_tickers := Some [ {| symbol := "SPY" |} ];
                            cfg_data_source := None |};
     environ_api_key := Some "demo";
     prices_file :=
       Some {| series :=
                 Some (<["SPY" := {[ "2025-06-02" :=
                                       S754_finite false 5066549580791808 (-49) ]}]>
                       {[ "IWM" := {[ "2025-06-02" :=
                                        S754_finite false 5629499534213120 (-49) ]} ]});
               fields := {[ "note" := JStr "kept by hand" ]} |};
     provider := fun _ _ => HttpJson sample_response;
     utc_clock := fun _ => "2025-07-05 06:00:00Z" |}.

Definition growing_written : document float :=
  default {| series := None; fields := ∅ |} (prices_after (main growing_world)).

(** The day after [sample_world]: the file that run left, the same provider. *)
Definition second_world : world :=
  {| config_file := Some sample_config;
     environ_api_key := Some " demo ";
     prices_file := Some sample_written;
     provider := fun _ _ => HttpJson sample_response;
     utc_clock := fun _ => "2025-07-06 06:00:00Z" |}.

(** * Properties *)

(** ** Merging *)

Section Merge.
Implicit Types E I : Series.

Lemma or_empty_id (x : Series) : or_empty x = x.
Proof. unfold or_empty. case_bool_decide; congruence. Qed.

Lemma merge_series_union E I : merge_series E I = I ∪ E.
Proof. unfold merge_series, dict_update. by rewrite !or_empty_id. Qed.

Lemma merge_series_lookup E I d :
  merge_series E I !! d = match I !! d with Some v => Some v | None => E !! d end.
Proof.
  rewrite merge_series_union, lookup_union.
  destruct (I !! d), (E !! d); reflexivity.
Qed.

Lemma merge_series_empty_inv E I : merge_series E I = ∅ → E = ∅.
Proof.
  intros H. apply map_eq. intros d. rewrite lookup_empty.
  assert (Hd : merge_series E I !! d = None) by (rewrite H; apply lookup_empty).
  rewrite merge_series_lookup in Hd. destruct (I !! d); congruence.
Qed.

Lemma obj_eq_refl (a : pyfloat) : obj_eq a a = true.
Proof. unfold obj_eq. rewrite bool_decide_eq_true_2; reflexivity. Qed.

Lemma dict_eq_refl (a : Series) : dict_eq a a = true.
Proof.
  unfold dict_eq. rewrite bool_decide_eq_true_2 by reflexivity. simpl.
  apply forallb_forall. intros [k va] Hin.
  apply list_elem_of_In, elem_of_map_to_list in Hin.
  rewrite Hin. apply obj_eq_refl.
Qed.
End Merge.

(** C1. [merge_series] is the right-biased union: the keys of the result
    are those of either argument, a date of the incoming series carries the
    incoming value, and a date of the existing series alone keeps its value,
    so no such date is removed. *)
Theorem merge_series_right_biased (E I : Series) :
  dom (merge_series E I) = dom E ∪ dom I ∧
  (∀ d v, I !! d = Some v → merge_series E I !! d = Some v) ∧
  (∀ d, I !! d = None → merge_series E I !! d = E !! d) ∧
  (∀ d, is_Some (E !! d) → is_Some (merge_series E I !! d)).
Proof.
  repeat split.
  - rewrite merge_series_union, dom_union_L. apply (comm_L (∪)).
  - intros d v Hd. by rewrite merge_series_lookup, Hd.
  - intros d Hd. by rewrite merge_series_lookup, Hd.
  - intros d [v Hv]. rewrite merge_series_lookup, Hv. destruct (I !! d); eauto.
Qed.

(** C5. Merging the same incoming series a second time changes nothing:
    the two results are the same mapping, and Python's [==] holds of them. *)
Theorem merge_series_idempotent (E I : Series) :
  merge_series (merge_series E I) I = merge_series E I ∧
  dict_eq (merge_series (merge_series E I) I) (merge_series E I) = true.
Proof.
  assert (Heq : merge_series (merge_series E I) I = merge_series E I).
  { apply map_eq. intros d. rewrite !merge_series_lookup. by destruct (I !! d). }
  split; [exact Heq |]. rewrite Heq. apply dict_eq_refl.
Qed.

(** ** Extraction *)

Section Extract.
Variable call : nat.
Variable cutoff : string.

Lemma kept_functional d fields v v' :
  kept call cutoff d fields v → kept call cutoff d fields v' → v = v'.
Proof.
  intros (_ & m & adj & -> & Hm & _ & Hv) (_ & m' & adj' & [= <-] & Hm' & _ & Hv').
  congruence.
Qed.

Lemma kept_not_unusable d fields v :
  kept call cutoff d fields v → ¬ unusable call d fields.
Proof.
  intros (_ & m & adj & -> & Hm & Hnull & Hv) (m' & [= <-] & [H | [H | (a & H & Hr)]]);
    congruence.
Qed.

Lemma py_float_convertible site adj :
  convertible adj = true → adj ≠ JNull →
  (∃ v, py_float site adj = Ok v) ∨ py_float site adj = Raise ValueError.
Proof.
  destruct adj as [| b | n | f | s | l | m]; simpl; try discriminate; try congruence.
  - intros _ _. destruct b; left; eexists; reflexivity.
  - destruct (float_of_int n); [| discriminate]. intros _ _. left. by eexists.
  - intros _ _. left. by eexists.
  - intros _ _. destruct (float_of_string s); [left; by eexists | by right].
Qed.

(** One step of the loop: the entry is skipped or stored. *)
Lemma extract_items_step d fields rest out res :
  extract_items call cutoff ((d, fields) :: rest) out = Ok res →
  ((∀ v, ¬ kept call cutoff d fields v) ∧ extract_items call cutoff rest out = Ok res) ∨
  (∃ v, kept call cutoff d fields v ∧
        extract_items call cutoff rest (<[d := v]> out) = Ok res).
Proof.
  simpl. destruct (String.ltb d cutoff) eqn:Hlt.
  { intros H. left. split; [| exact H]. intros v [Hk _]. congruence. }
  destruct fields as [| b | n | f | s | l | m]; simpl; try discriminate.
  unfold dict_get. destruct (m !! ADJUSTED_CLOSE_KEY) as [adj |] eqn:Hm; simpl.
  2:{ intros H. left. split; [| exact H].
      intros v (_ & m' & a' & [= <-] & Hm' & _). congruence. }
  assert (Hgo : adj ≠ JNull →
    match py_float (OnFetch call d) adj with
    | Ok v => extract_items call cutoff rest (<[d := v]> out)
    | Raise ValueError => extract_items call cutoff rest out
    | Raise e => Raise e
    end = Ok res →
    ((∀ v, ¬ kept call cutoff d (JDict m) v) ∧ extract_items call cutoff rest out = Ok res) ∨
    (∃ v, kept call cutoff d (JDict m) v ∧
          extract_items call cutoff rest (<[d := v]> out) = Ok res)).
  { intros Hn. destruct (py_float (OnFetch call d) adj) as [v | e] eqn:Hv.
    - intros H. right. exists v. split; [| exact H].
      split; [exact Hlt |]. exists m, adj. auto.
    - destruct e; try discriminate. intros H. left. split; [| exact H].
      intros v (_ & m' & a' & [= <-] & Hm' & _ & Hv'). congruence. }
  destruct adj; try (apply Hgo; discriminate).
  intros H. left. split; [| exact H].
  intros v (_ & m' & a' & [= <-] & Hm' & Hn & _). congruence.
Qed.

(** Every stored value was kept from an entry, or was there before. *)
Lemma extract_items_sound items : ∀ out res d v,
  extract_items call cutoff items out = Ok res → res !! d = Some v →
  out !! d = Some v ∨ ∃ fields, (d, fields) ∈ items ∧ kept call cutoff d fields v.
Proof.
  induction items as [| [d0 fields0] rest IH]; intros out res d v Hres Hd.
  { simpl in Hres. injection Hres as <-. by left. }
  apply extract_items_step in Hres as [[_ Hres] | (v0 & Hk & Hres)].
  - destruct (IH _ _ _ _ Hres Hd) as [H | (fields & Hin & Hk)]; [by left |].
    right. exists fields. split; [by apply list_elem_of_further | done].
  - destruct (IH _ _ _ _ Hres Hd) as [H | (fields & Hin & Hk')].
    + rewrite lookup_insert in H. case_decide as Heq.
      * injection H as <-. subst d0. right. exists fields0.
        split; [apply list_elem_of_here | done].
      * by left.
    + right. exists fields. split; [by apply list_elem_of_further | done].
Qed.

(** A date that is not among the items keeps what it had. *)
Lemma extract_items_frame items : ∀ out res d,
  d ∉ items.*1 → extract_items call cutoff items out = Ok res → res !! d = out !! d.
Proof.
  induction items as [| [d0 fields0] rest IH]; intros out res d Hd Hres.
  { simpl in Hres. by injection Hres as <-. }
  simpl in Hd. apply not_elem_of_cons in Hd as [Hne Hd].
  apply extract_items_step in Hres as [[_ Hres] | (v0 & _ & Hres)].
  - by apply IH.
  - rewrite (IH _ _ _ Hd Hres). by apply lookup_insert_ne.
Qed.

(** What the result holds at a date, when the dates of the items are
    pairwise distinct. *)
Lemma extract_items_lookup items : ∀ out res d fields,
  NoDup items.*1 →
  extract_items call cutoff items out = Ok res → (d, fields) ∈ items →
  (∀ v, kept call cutoff d fields v → res !! d = Some v) ∧
  ((∀ v, ¬ kept call cutoff d fields v) → res !! d = out !! d).
Proof.
  induction items as [| [d0 fields0] rest IH]; intros out res d fields Hnd Hres Hin.
  { by apply elem_of_nil in Hin. }
  simpl in Hnd. apply NoDup_cons in Hnd as [Hfresh Hnd].
  apply elem_of_cons in Hin as [[= -> ->] | Hin].
  - apply extract_items_step in Hres as [[Hno Hres] | (v0 & Hk & Hres)].
    + split; [intros v Hk; by destruct (Hno v) |].
      intros _. by apply (extract_items_frame rest).
    + split.
      * intros v Hk'. rewrite (kept_functional _ _ _ _ Hk' Hk).
        rewrite (extract_items_frame rest _ _ _ Hfresh Hres). apply lookup_insert_eq.
      * intros Hno. by destruct (Hno v0).
  - assert (Hne : d0 ≠ d).
    { intros ->. apply Hfresh. apply list_elem_of_fmap. by exists (d, fields). }
    apply extract_items_step in Hres as [[_ Hres] | (v0 & _ & Hres)].
    + by apply IH.
    + destruct (IH _ _ _ _ Hnd Hres Hin) as [H1 H2]. split; [done |].
      intros Hno. rewrite (H2 Hno). by apply lookup_insert_ne.
Qed.

(** The loop ends without raising on bundles that are well formed. *)
Lemma extract_items_returns items : ∀ out,
  forallb (fun '(d, fields) => String.ltb d cutoff || bundle_ok fields) items = true →
  ∃ res, extract_items call cutoff items out = Ok res.
Proof.
  induction items as [| [d fields] rest IH]; intros out Hok.
  { by eexists. }
  simpl in Hok. apply andb_true_iff in Hok as [Hhd Hrest].
  simpl. destruct (String.ltb d cutoff) eqn:Hlt; [by apply IH |].
  simpl in Hhd. destruct fields as [| b | n | f | s | l | m]; try discriminate.
  simpl in *.
  destruct (dict_get m ADJUSTED_CLOSE_KEY JNull) as [| b | n | f | s | l | m'] eqn:Hadj;
    try discriminate; [by apply IH | | | |].
  all: match goal with
       | |- context [py_float ?site ?a] =>
           destruct (py_float_convertible site a Hhd ltac:(discriminate))
             as [[v ->] | ->]
       end; by apply IH.
Qed.

(** The extractor on a response whose container is an object. *)
Lemma extract_series av_json series :
  av_json !! TIME_SERIES_KEY = Some (JDict series) →
  extract_adjusted_close_series call av_json cutoff =
  extract_items call cutoff (map_to_list series) ∅.
Proof. intros H. unfold extract_adjusted_close_series, dict_item. by rewrite H. Qed.

Lemma extract_returns_inv av_json out :
  extract_adjusted_close_series call av_json cutoff = Ok out →
  ∃ series, av_json !! TIME_SERIES_KEY = Some (JDict series).
Proof.
  unfold extract_adjusted_close_series, dict_item.
  destruct (av_json !! TIME_SERIES_KEY) as [[| | | | | |series] |]; try discriminate.
  intros _. by exists series.
Qed.

(** The three facts about a result of the extractor. *)
Lemma extract_result av_json series out :
  av_json !! TIME_SERIES_KEY = Some (JDict series) →
  extract_adjusted_close_series call av_json cutoff = Ok out →
  (∀ d v, out !! d = Some v → ∃ fields, series !! d = Some fields ∧
                                         kept call cutoff d fields v) ∧
  (∀ d fields v, series !! d = Some fields → kept call cutoff d fields v →
                 out !! d = Some v) ∧
  (∀ d fields, series !! d = Some fields → unusable call d fields → out !! d = None).
Proof.
  intros Hs Hout. rewrite (extract_series _ _ Hs) in Hout.
  pose proof (NoDup_fst_map_to_list series) as Hnd.
  split; [| split].
  - intros d v Hd.
    destruct (extract_items_sound _ _ _ _ _ Hout Hd) as [H | (fields & Hin & Hk)].
    + by rewrite lookup_empty in H.
    + exists fields. split; [by apply elem_of_map_to_list | done].
  - intros d fields v Hd Hk. apply elem_of_map_to_list in Hd.
    by apply (extract_items_lookup _ _ _ _ _ Hnd Hout Hd).
  - intros d fields Hd Hu. apply elem_of_map_to_list in Hd.
    destruct (extract_items_lookup _ _ _ _ _ Hnd Hout Hd) as [_ H].
    rewrite H; [apply lookup_empty |].
    intros v Hk. by apply (kept_not_unusable _ _ _ Hk).
Qed.
End Extract.

(** C2, as stated, fails: a response that has the container but whose
    adjusted-close field is a JSON array makes the extractor raise
    [TypeError]. *)
Lemma extract_raises_on_list_field :
  is_Some (list_field_response !! TIME_SERIES_KEY) ∧
  extract_adjusted_close_series 1 list_field_response "2025-07-01" = Raise TypeError.
Proof. split; [by eexists | reflexivity]. Qed.

(** C2, amended.  On a response whose container is an object and whose
    bundles from the cutoff on are objects with an adjusted-close field that
    is absent, null, a string, a boolean, a float or an integer within the
    range of a double, the extractor returns a mapping that holds no date
    before the cutoff, no entry whose field is missing, null or rejected by
    [float], and every entry from the cutoff on whose field [float]
    accepts, with the value [float] gives. *)
Theorem extract_well_formed_response (call : nat) (av_json : gmap string json)
    (cutoff : string) :
  well_formed cutoff av_json = true →
  ∃ series out,
    av_json !! TIME_SERIES_KEY = Some (JDict series) ∧
    extract_adjusted_close_series call av_json cutoff = Ok out ∧
    (∀ d, is_Some (out !! d) → String.ltb d cutoff = false) ∧
    (∀ d fields, series !! d = Some fields → unusable call d fields → out !! d = None) ∧
    (∀ d m adj v, series !! d = Some (JDict m) → String.ltb d cutoff = false →
                  m !! ADJUSTED_CLOSE_KEY = Some adj → adj ≠ JNull →
                  py_float (OnFetch call d) adj = Ok v → out !! d = Some v).
Proof.
  unfold well_formed. intros Hwf.
  destruct (av_json !! TIME_SERIES_KEY) as [[| | | | | |series] |] eqn:Hs; try discriminate.
  destruct (extract_items_returns call cutoff _ ∅ Hwf) as [out Hout].
  rewrite <- (extract_series call cutoff _ _ Hs) in Hout.
  destruct (extract_result call cutoff _ _ _ Hs Hout) as (Hsound & Hcomplete & Hdrop).
  exists series, out. repeat split; [done | | done |].
  - intros d [v Hd]. by destruct (Hsound d v Hd) as (fields & _ & Hlt & _).
  - intros d m adj v Hd Hlt Hm Hn Hv. apply (Hcomplete d (JDict m)); [done |].
    split; [done |]. by exists m, adj.
Qed.

(** C2, amended, on [sample_response]. *)
Lemma extract_well_formed_response_witness :
  well_formed "2025-07-01" sample_response = true ∧
  ∃ series out,
    sample_response !! TIME_SERIES_KEY = Some (JDict series) ∧
    extract_adjusted_close_series 1 sample_response "2025-07-01" = Ok out ∧
    (∀ d, is_Some (out !! d) → String.ltb d "2025-07-01" = false) ∧
    (∀ d fields, series !! d = Some fields → unusable 1 d fields → out !! d = None) ∧
    (∀ d m adj v, series !! d = Some (JDict m) → String.ltb d "2025-07-01" = false →
                  m !! ADJUSTED_CLOSE_KEY = Some adj → adj ≠ JNull →
                  py_float (OnFetch 1 d) adj = Ok v → out !! d = Some v).
Proof.
  split; [reflexivity |].
  apply (extract_well_formed_response 1 sample_response "2025-07-01"). reflexivity.
Defined.

(** C6, as stated, fails: the string [nan] is a float for Python, and the
    extractor stores the NaN it denotes. *)
Lemma extract_stores_nan :
  ∃ out o,
    extract_adjusted_close_series 1 nan_response "2025-07-01" = Ok out ∧
    out !! "2025-07-01" = Some o ∧ is_finite (fval o) = false.
Proof.
  exists {[ "2025-07-01" := PyFloat (OnFetch 1 "2025-07-01") S754_nan ]},
         (PyFloat (OnFetch 1 "2025-07-01") S754_nan).
  split; [reflexivity | split; reflexivity].
Qed.

(** C6, amended.  Every value the extractor stores is the float that
    [float] returns for the adjusted-close field of the entry of that date,
    be it finite, an infinity or a NaN; an entry whose field is missing,
    null or rejected by [float] is dropped, and nothing is stored in its
    place. *)
Theorem extract_stores_float_of_field (call : nat) (av_json : gmap string json)
    (cutoff : string) (out : Series) :
  extract_adjusted_close_series call av_json cutoff = Ok out →
  ∃ series,
    av_json !! TIME_SERIES_KEY = Some (JDict series) ∧
    (∀ d o, out !! d = Some o →
       ∃ m adj, series !! d = Some (JDict m) ∧ m !! ADJUSTED_CLOSE_KEY = Some adj ∧
                adj ≠ JNull ∧ py_float (OnFetch call d) adj = Ok o) ∧
    (∀ d fields, series !! d = Some fields → unusable call d fields → out !! d = None).
Proof.
  intros Hout. destruct (extract_returns_inv call cutoff _ _ Hout) as [series Hs].
  destruct (extract_result call cutoff _ _ _ Hs Hout) as (Hsound & _ & Hdrop).
  exists series. repeat split; [done | | done].
  intros d o Hd. destruct (Hsound d o Hd) as (fields & Hf & _ & m & adj & -> & H).
  by exists m, adj.
Qed.

(** C6, amended, on [nan_response]. *)
Lemma extract_stores_float_of_field_witness :
  ∃ series,
    nan_response !! TIME_SERIES_KEY = Some (JDict series) ∧
    (∀ d o, ({[ "2025-07-01" := PyFloat (OnFetch 1 "2025-07-01") S754_nan ]} : Series) !! d
            = Some o →
       ∃ m adj, series !! d = Some (JDict m) ∧ m !! ADJUSTED_CLOSE_KEY = Some adj ∧
                adj ≠ JNull ∧ py_float (OnFetch 1 d) adj = Ok o) ∧
    (∀ d fields, series !! d = Some fields → unusable 1 d fields →
       ({[ "2025-07-01" := PyFloat (OnFetch 1 "2025-07-01") S754_nan ]} : Series) !! d = None).
Proof.
  apply (extract_stores_float_of_field 1 nan_response "2025-07-01"). reflexivity.
Defined.

(** ** The loop of [main] *)

Section Loop.
Variable w : world.
Variable av_cfg : AvConfig.
Variable earliest_date : string.

Lemma process_ticker_ok i sym st evs st' :
  process_ticker w av_cfg earliest_date i sym st = (evs, Ok st') →
  evs = [EvFetch sym; EvSleep PAUSE_SECONDS] ∧
  ∃ av_json incoming,
    fetch_daily_adjusted w i sym av_cfg = Ok av_json ∧
    extract_adjusted_close_series i av_json earliest_date = Ok incoming ∧
    let existing := dict_get (current_series st) sym ∅ in
    let merged := merge_series existing incoming in
    st' = if dict_ne merged existing
          then {| current_series := <[sym := merged]> (current_series st);
                  updated_any := true |}
          else st.
Proof.
  unfold process_ticker.
  destruct (fetch_daily_adjusted w i sym av_cfg) as [j | e] eqn:Hj;
    [| simpl; discriminate].
  destruct (extract_adjusted_close_series i j earliest_date) as [inc | e] eqn:Hinc;
    [| simpl; discriminate].
  intros H. injection H as <- <-. split; [reflexivity |]. by exists j, inc.
Qed.

Lemma process_ticker_raise i sym st evs e :
  process_ticker w av_cfg earliest_date i sym st = (evs, Raise e) →
  evs = [EvFetch sym] ∧
  (fetch_daily_adjusted w i sym av_cfg = Raise e ∨
   ∃ av_json, fetch_daily_adjusted w i sym av_cfg = Ok av_json ∧
              extract_adjusted_close_series i av_json earliest_date = Raise e).
Proof.
  unfold process_ticker.
  destruct (fetch_daily_adjusted w i sym av_cfg) as [j | e0] eqn:Hj.
  - destruct (extract_adjusted_close_series i j earliest_date) as [inc | e1] eqn:Hinc;
      [simpl; discriminate |].
    intros H. injection H as <- <-. split; [reflexivity |]. right. by exists j.
  - intros H. injection H as <- <-. split; [reflexivity |]. by left.
Qed.

Lemma process_ticker_fetch_raise i sym st e :
  fetch_daily_adjusted w i sym av_cfg = Raise e →
  process_ticker w av_cfg earliest_date i sym st = ([EvFetch sym], Raise e).
Proof. intros H. unfold process_ticker. by rewrite H. Qed.

(** The loop over [pre ++ post] is the loop over [pre] followed by the
    loop over [post]. *)
Lemma for_tickers_app pre : ∀ post i st evs st',
  for_tickers w av_cfg earliest_date i pre st = (evs, Ok st') →
  for_tickers w av_cfg earliest_date i (pre ++ post) st =
  (evs ++ (for_tickers w av_cfg earliest_date (i + length pre) post st').1,
   (for_tickers w av_cfg earliest_date (i + length pre) post st').2).
Proof.
  induction pre as [| sym pre IH]; intros post i st evs st' Hpre.
  { simpl in *. injection Hpre as <- <-. rewrite Nat.add_0_r.
    by destruct (for_tickers _ _ _ _ _ _). }
  simpl in *.
  destruct (process_ticker w av_cfg earliest_date i sym st) as [e1 [st1 | e]];
    [| simpl; discriminate].
  destruct (for_tickers w av_cfg earliest_date (S i) pre st1) as [e2 r2] eqn:Hrest.
  injection Hpre as <- ->.
  rewrite (IH post (S i) st1 e2 st' Hrest).
  replace (S i + length pre)%nat with (i + S (length pre))%nat by lia.
  by rewrite app_assoc.
Qed.

(** A loop that ends normally ran every iteration to its end. *)
Lemma for_tickers_ok_trace tickers : ∀ i st evs st',
  for_tickers w av_cfg earliest_date i tickers st = (evs, Ok st') →
  evs = paced tickers.
Proof.
  induction tickers as [| sym rest IH]; intros i st evs st' H.
  { simpl in H. by injection H as <- _. }
  simpl in H.
  destruct (process_ticker w av_cfg earliest_date i sym st) as [e1 [st1 | e]] eqn:Hstep;
    [| simpl; discriminate].
  destruct (for_tickers w av_cfg earliest_date (S i) rest st1) as [e2 r2] eqn:Hrest.
  injection H as <- ->.
  apply process_ticker_ok in Hstep as [-> _].
  by rewrite (IH _ _ _ _ Hrest).
Qed.

(** A loop that raises stopped in the iteration of one ticker, after the
    iterations of the tickers before it. *)
Lemma for_tickers_raise tickers : ∀ i st evs e,
  for_tickers w av_cfg earliest_date i tickers st = (evs, Raise e) →
  ∃ pre sym post st',
    tickers = pre ++ sym :: post ∧
    for_tickers w av_cfg earliest_date i pre st = (paced pre, Ok st') ∧
    process_ticker w av_cfg earliest_date (i + length pre) sym st'
      = ([EvFetch sym], Raise e) ∧
    evs = paced pre ++ [EvFetch sym].
Proof.
  induction tickers as [| sym rest IH]; intros i st evs e H.
  { discriminate. }
  simpl in H.
  destruct (process_ticker w av_cfg earliest_date i sym st) as [e1 [st1 | e0]] eqn:Hstep.
  - destruct (for_tickers w av_cfg earliest_date (S i) rest st1) as [e2 r2] eqn:Hrest.
    injection H as <- ->.
    destruct (IH _ _ _ _ Hrest) as (pre & s & post & st' & -> & Hpre & Hs & ->).
    pose proof (process_ticker_ok _ _ _ _ _ Hstep) as [-> _].
    exists (sym :: pre), s, post, st'. split; [done | split; [| split; [| done]]].
    + simpl. rewrite Hstep, Hpre. done.
    + simpl. by replace (i + S (length pre))%nat with (S i + length pre)%nat by lia.
  - injection H as <- <-.
    pose proof (process_ticker_raise _ _ _ _ _ Hstep) as [-> _].
    exists [], sym, rest, st. simpl. rewrite Nat.add_0_r. done.
Qed.

(** The flag after the loop: set before, or set by an iteration. *)
Lemma for_tickers_updated tickers : ∀ i st evs st',
  for_tickers w av_cfg earliest_date i tickers st = (evs, Ok st') →
  updated_any st' = true ↔
  updated_any st = true ∨
  ∃ pre sym post st0,
    tickers = pre ++ sym :: post ∧
    for_tickers w av_cfg earliest_date i pre st = (paced pre, Ok st0) ∧
    step_changes w av_cfg earliest_date (i + length pre) sym st0.
Proof.
  induction tickers as [| sym rest IH]; intros i st evs st' H.
  { simpl in H. injection H as _ <-. split; [by left |].
    intros [Hu | (pre & s & post & st0 & Heq & _)]; [done |].
    by destruct pre. }
  simpl in H.
  destruct (process_ticker w av_cfg earliest_date i sym st) as [e1 [st1 | e]] eqn:Hstep;
    [| simpl; discriminate].
  destruct (for_tickers w av_cfg earliest_date (S i) rest st1) as [e2 r2] eqn:Hrest.
  injection H as <- ->.
  pose proof (process_ticker_ok _ _ _ _ _ Hstep) as (-> & j & inc & Hj & Hinc & Hst1).
  simpl in Hst1. rewrite (IH _ _ _ _ Hrest). split.
  - intros [Hu | (pre & s & post & st0 & -> & Hpre & Hch)].
    + destruct (dict_ne _ _) eqn:Hne.
      * right. exists [], sym, rest, st. simpl. rewrite Nat.add_0_r.
        split; [done | split; [done |]]. by exists j, inc.
      * left. by subst st1.
    + right. exists (sym :: pre), s, post, st0. split; [done | split].
      * simpl. by rewrite Hstep, Hpre.
      * by replace (i + length (sym :: pre))%nat with (S i + length pre)%nat
          by (simpl; lia).
  - intros [Hu | (pre & s & post & st0 & Heq & Hpre & Hch)].
    + left. subst st1. by destruct (dict_ne _ _).
    + destruct pre as [| s0 pre].
      * simpl in Heq, Hpre, Hch. injection Heq as <- <-. injection Hpre as <-.
        rewrite Nat.add_0_r in Hch. destruct Hch as (j' & inc' & Hj' & Hinc' & Hne).
        rewrite Hj in Hj'. injection Hj' as <-.
        rewrite Hinc in Hinc'. injection Hinc' as <-.
        left. subst st1. by rewrite Hne.
      * simpl in Heq. injection Heq as <- ->. simpl in Hpre. rewrite Hstep in Hpre.
        destruct (for_tickers w av_cfg earliest_date (S i) pre st1) as [e3 r3] eqn:Hp.
        injection Hpre as Hev ->.
        right. exists pre, s, post, st0. split; [done | split].
        -- by rewrite (for_tickers_ok_trace _ _ _ _ _ Hp) in Hp.
        -- by replace (S i + length pre)%nat with (i + length (sym :: pre))%nat
             by (simpl; lia).
Qed.

(** The loop creates no empty series. *)
Lemma process_ticker_no_empty i sym st evs st' s :
  process_ticker w av_cfg earliest_date i sym st = (evs, Ok st') →
  current_series st' !! s = Some ∅ → current_series st !! s = Some ∅.
Proof.
  intros Hstep. apply process_ticker_ok in Hstep as (_ & j & inc & _ & _ & Hst').
  simpl in Hst'. destruct (dict_ne _ _) eqn:Hne; [| by subst st'].
  subst st'. simpl. rewrite lookup_insert. case_decide as Heq; [| done].
  intros [= Hm]. exfalso. subst s.
  pose proof (merge_series_empty_inv _ _ Hm) as He.
  rewrite Hm, He in Hne. unfold dict_ne in Hne. by rewrite dict_eq_refl in Hne.
Qed.

Lemma for_tickers_no_empty tickers : ∀ i st evs st' s,
  for_tickers w av_cfg earliest_date i tickers st = (evs, Ok st') →
  current_series st' !! s = Some ∅ → current_series st !! s = Some ∅.
Proof.
  induction tickers as [| sym rest IH]; intros i st evs st' s H.
  { simpl in H. by injection H as _ <-. }
  simpl in H.
  destruct (process_ticker w av_cfg earliest_date i sym st) as [e1 [st1 | e]] eqn:Hstep;
    [| simpl; discriminate].
  destruct (for_tickers w av_cfg earliest_date (S i) rest st1) as [e2 r2] eqn:Hrest.
  injection H as <- ->. intros Hs.
  eapply process_ticker_no_empty; [exact Hstep |]. by eapply IH.
Qed.
End Loop.

(** ** Runs of [main] *)

Section Runs.
Variable w : world.

Lemma paced_no_write tickers doc : EvWrite doc ∉ paced tickers.
Proof.
  induction tickers as [| sym rest IH]; simpl.
  - apply not_elem_of_nil.
  - intros H. apply elem_of_cons in H as [[=] | H].
    apply elem_of_cons in H as [[=] | H]. by apply IH.
Qed.

(** The runs that reach the loop. *)
Lemma main_loop cfg :
  config_file w = Some cfg → av_key_of w ≠ "" → tickers_of cfg ≠ [] →
  main w =
  match for_tickers w (av_config_of w) (earliest_date_of cfg) 1 (tickers_of cfg)
                    (initial_state w) with
  | (evs, Raise e) => abort w evs e
  | (evs, Ok st) => persist w cfg evs st
  end.
Proof.
  intros Hcfg Hkey Htk. unfold main. rewrite Hcfg.
  destruct (String.eqb_spec (av_key_of w) "") as [Heq | _]; [done |].
  by destruct (tickers_of cfg).
Qed.

(** A run that ends normally went through the loop. *)
Lemma main_ok_inv cfg z :
  config_file w = Some cfg → outcome (main w) = Ok z →
  ∃ st,
    for_tickers w (av_config_of w) (earliest_date_of cfg) 1 (tickers_of cfg)
                (initial_state w) = (paced (tickers_of cfg), Ok st) ∧
    main w = persist w cfg (paced (tickers_of cfg)) st.
Proof.
  intros Hcfg. unfold main. rewrite Hcfg.
  destruct (String.eqb (av_key_of w) ""); [simpl; discriminate |].
  destruct (tickers_of cfg) as [| t ts] eqn:Htk; [simpl; discriminate |].
  destruct (for_tickers _ _ _ _ _ _) as [evs [st | e]] eqn:Hloop; [| simpl; discriminate].
  intros _. exists st. rewrite <- (for_tickers_ok_trace _ _ _ _ _ _ _ _ Hloop). done.
Qed.

Lemma persist_outcome cfg evs st : outcome (persist w cfg evs st) = Ok 0.
Proof. unfold persist. destruct (updated_any st), (prices_file w); reflexivity. Qed.

(** What [persist] writes, and when. *)
Lemma persist_wrote cfg tickers st :
  wrote (persist w cfg (paced tickers) st) ↔
  updated_any st = true ∨ prices_file w = None.
Proof.
  unfold wrote, persist. destruct (updated_any st) eqn:Hu.
  - split; [by left |]. intros _. eexists. apply elem_of_app. right.
    apply list_elem_of_here.
  - destruct (prices_file w) as [f |] eqn:Hf; simpl.
    + split.
      * intros [doc Hdoc]. by apply paced_no_write in Hdoc.
      * intros [? | ?]; discriminate.
    + split; [by right |]. intros _. eexists. apply elem_of_app. right.
      apply list_elem_of_here.
Qed.

Lemma persist_trace cfg tickers st doc :
  EvWrite doc ∈ trace (persist w cfg (paced tickers) st) →
  trace (persist w cfg (paced tickers) st) = paced tickers ++ [EvWrite doc] ∧
  doc = dump_json (stamp cfg (earliest_date_of cfg) (utc_clock w (paced tickers))
                         (current_of w) (current_series st)).
Proof.
  assert (Hlast : ∀ d d' : document float,
            EvWrite d ∈ paced tickers ++ [EvWrite d'] → d' = d).
  { intros d d' H. apply elem_of_app in H as [H | H].
    - by apply paced_no_write in H.
    - apply list_elem_of_singleton in H. by injection H. }
  unfold persist. destruct (updated_any st).
  - simpl. intros H. apply Hlast in H. by subst doc.
  - destruct (prices_file w); simpl.
    + intros H. by apply paced_no_write in H.
    + intros H. apply Hlast in H. by subst doc.
Qed.
End Runs.

Lemma dict_in_lookup {V} key (d : gmap string V) :
  dict_in key d = true → ∃ v, d !! key = Some v.
Proof. unfold dict_in. destruct (d !! key); [by eexists | discriminate]. Qed.

Lemma fetch_failure w call sym cfg j k :
  provider w call (request_params sym cfg) = HttpJson j →
  failure_kind j = Some k →
  ∃ e, fetch_daily_adjusted w call sym cfg = Raise e ∧ kind_of e = Some k.
Proof.
  intros Hp. unfold fetch_daily_adjusted, failure_kind. rewrite Hp.
  destruct (dict_in "Error Message" j) eqn:H1.
  { destruct (dict_in_lookup _ _ H1) as [v Hv]. unfold dict_item. rewrite Hv.
    intros [= <-]. by eexists. }
  destruct (dict_in "Note" j) eqn:H2.
  { destruct (dict_in_lookup _ _ H2) as [v Hv]. unfold dict_item. rewrite Hv.
    intros [= <-]. by eexists. }
  destruct (negb (dict_in TIME_SERIES_KEY j)); [| discriminate].
  intros [= <-]. by eexists.
Qed.

Lemma pauses_paced tickers :
  pauses (paced tickers) = replicate (length tickers) PAUSE_SECONDS.
Proof. induction tickers as [| sym rest IH]; simpl; [done | by rewrite <- IH]. Qed.

(** C3. A response with an explicit error indicator makes the fetch fail
    with the provider error, one that signals throttling (and no error)
    with the rate-limit error, one without the series container (and
    neither indicator) with the schema error.  The failure ends the run at
    once: the failing request is its last event, no ticker after it is
    fetched, and the dataset file is left as it was. *)
Theorem fetch_failure_aborts_run (w : world) (cfg : config)
    (pre : list string) (sym : string) (post : list string) (st : loop_state)
    (j : gmap string json) (k : error_kind) :
  config_file w = Some cfg →
  av_key_of w ≠ "" →
  tickers_of cfg = pre ++ sym :: post →
  for_tickers w (av_config_of w) (earliest_date_of cfg) 1 pre (initial_state w)
    = (paced pre, Ok st) →
  provider w (S (length pre)) (request_params sym (av_config_of w)) = HttpJson j →
  failure_kind j = Some k →
  ∃ e,
    fetch_daily_adjusted w (S (length pre)) sym (av_config_of w) = Raise e ∧
    kind_of e = Some k ∧
    outcome (main w) = Raise e ∧
    trace (main w) = paced pre ++ [EvFetch sym] ∧
    (∀ doc, EvWrite doc ∉ trace (main w)) ∧
    prices_after (main w) = prices_file w.
Proof.
  intros Hcfg Hkey Htk Hpre Hp Hk.
  destruct (fetch_failure _ _ _ _ _ _ Hp Hk) as (e & Hfetch & Hkind).
  exists e. split; [done | split; [done |]].
  assert (Hmain : main w = abort w (paced pre ++ [EvFetch sym]) e).
  { rewrite (main_loop w cfg Hcfg Hkey) by (rewrite Htk; by destruct pre).
    rewrite Htk, (for_tickers_app _ _ _ _ _ _ _ _ _ Hpre). simpl.
    by rewrite (process_ticker_fetch_raise _ _ _ _ _ _ _ Hfetch). }
  rewrite Hmain. simpl. repeat split.
  intros doc H. apply elem_of_app in H as [H | H].
  - by apply paced_no_write in H.
  - apply list_elem_of_singleton in H. discriminate.
Qed.

(** C3 in [failing_world]: the second request is answered with an error. *)
Lemma fetch_failure_aborts_run_witness :
  ∃ e,
    fetch_daily_adjusted failing_world 2 "QQQ" (av_config_of failing_world) = Raise e ∧
    kind_of e = Some ProviderError ∧
    outcome (main failing_world) = Raise e ∧
    trace (main failing_world) = paced ["SPY"] ++ [EvFetch "QQQ"] ∧
    (∀ doc, EvWrite doc ∉ trace (main failing_world)) ∧
    prices_after (main failing_world) = prices_file failing_world.
Proof.
  apply (fetch_failure_aborts_run failing_world sample_config ["SPY"] "QQQ" []
           {| current_series :=
                {[ "SPY" := (<["2025-07-01" :=
                               PyFloat (OnFetch 1 "2025-07-01")
                                       (S754_finite false 5629499534213120 (-49))]>
                             {[ "2025-07-02" :=
                               PyFloat (OnFetch 1 "2025-07-02")
                                       (S754_finite false 5910974510923776 (-49)) ]}) ]};
              updated_any := true |}
           error_response ProviderError).
  - reflexivity.
  - vm_compute. discriminate.
  - reflexivity.
  - vm_compute. reflexivity.
  - reflexivity.
  - reflexivity.
Defined.

(** C4. Once every ticker is processed, the dataset file is written exactly
    when the merged series of some ticker differed from its prior series
    ([merged != existing]) or no dataset file existed before the run;
    otherwise the file is left as it was. *)
Theorem write_iff_changed_or_first_run (w : world) (cfg : config) :
  config_file w = Some cfg →
  outcome (main w) = Ok 0 →
  (wrote (main w) ↔
     (∃ pre sym post, tickers_of cfg = pre ++ sym :: post ∧ changed_at w cfg pre sym) ∨
     prices_file w = None) ∧
  (¬ wrote (main w) → prices_after (main w) = prices_file w).
Proof.
  intros Hcfg Hok. destruct (main_ok_inv w cfg 0 Hcfg Hok) as (st & Hloop & Hmain).
  rewrite Hmain. split.
  - rewrite persist_wrote, (for_tickers_updated _ _ _ _ _ _ _ _ Hloop). simpl.
    unfold changed_at. split.
    + intros [[Hf | (pre & sym & post & st0 & Htk & Hpre & Hch)] | Hnone];
        [discriminate | left | by right].
      exists pre, sym, post. split; [done |]. by exists st0.
    + intros [(pre & sym & post & Htk & st0 & Hpre & Hch) | Hnone]; [left | by right].
      right. by exists pre, sym, post, st0.
  - rewrite persist_wrote. intros Hno. unfold persist.
    destruct (updated_any st); [exfalso; apply Hno; by left |].
    destruct (prices_file w); [done |]. exfalso. apply Hno. by right.
Qed.

(** C4 in [sample_world], a first run. *)
Lemma write_iff_changed_or_first_run_witness :
  (wrote (main sample_world) ↔
     (∃ pre sym post, tickers_of sample_config = pre ++ sym :: post ∧
                      changed_at sample_world sample_config pre sym) ∨
     prices_file sample_world = None) ∧
  (¬ wrote (main sample_world) → prices_after (main sample_world) = prices_file sample_world).
Proof.
  apply (write_iff_changed_or_first_run sample_world sample_config); reflexivity.
Defined.

(** C7. Whenever the dataset is written, whether or not any series changed,
    the document written carries the time read from the clock after the
    loop of this run, and the provider, endpoint, field and earliest date
    of the configuration, or their defaults where it has none. *)
Theorem written_document_is_stamped (w : world) (cfg : config) (doc : document float) :
  config_file w = Some cfg →
  EvWrite doc ∈ trace (main w) →
  ∃ evs,
    trace (main w) = evs ++ [EvWrite doc] ∧
    fields doc !! "generated_utc" = Some (JStr (utc_clock w evs)) ∧
    fields doc !! "provider" =
      Some (dict_get (default ∅ (cfg_data_source cfg)) "provider" (JStr "Alpha Vantage")) ∧
    fields doc !! "endpoint" =
      Some (dict_get (default ∅ (cfg_data_source cfg)) "endpoint"
                     (JStr "TIME_SERIES_DAILY_ADJUSTED")) ∧
    fields doc !! "field" =
      Some (dict_get (default ∅ (cfg_data_source cfg)) "field" (JStr "5. adjusted close")) ∧
    fields doc !! "earliest_date" =
      Some (JStr (dict_get (default ∅ (cfg_data_window cfg)) "earliest_date" "2025-07-01")).
Proof.
  intros Hcfg Hdoc.
  assert (Hrun : ∃ st, main w = persist w cfg (paced (tickers_of cfg)) st).
  { revert Hdoc. unfold main. rewrite Hcfg.
    destruct (String.eqb (av_key_of w) ""); [simpl; by intros ?%elem_of_nil |].
    destruct (tickers_of cfg) as [| t ts] eqn:Htk; [simpl; by intros ?%elem_of_nil |].
    destruct (for_tickers _ _ _ _ _ _) as [evs [st | e]] eqn:Hloop.
    - intros _. exists st. by rewrite <- (for_tickers_ok_trace _ _ _ _ _ _ _ _ Hloop).
    - simpl. intros H.
      destruct (for_tickers_raise _ _ _ _ _ _ _ _ Hloop)
        as (pre & s & post & st' & _ & _ & _ & ->).
      apply elem_of_app in H as [H | H].
      + by apply paced_no_write in H.
      + apply list_elem_of_singleton in H. discriminate. }
  destruct Hrun as [st Hmain]. rewrite Hmain in Hdoc |- *.
  destruct (persist_trace w cfg _ st doc Hdoc) as [Htr ->].
  exists (paced (tickers_of cfg)). split; [done |].
  unfold dump_json, stamp, earliest_date_of. simpl.
  repeat split; by simplify_map_eq.
Qed.

(** C7 on the document written in [sample_world]. *)
Lemma written_document_is_stamped_witness :
  ∃ evs,
    trace (main sample_world) = evs ++ [EvWrite sample_written] ∧
    fields sample_written !! "generated_utc" = Some (JStr (utc_clock sample_world evs)) ∧
    fields sample_written !! "provider" =
      Some (dict_get (default ∅ (cfg_data_source sample_config)) "provider"
                     (JStr "Alpha Vantage")) ∧
    fields sample_written !! "endpoint" =
      Some (dict_get (default ∅ (cfg_data_source sample_config)) "endpoint"
                     (JStr "TIME_SERIES_DAILY_ADJUSTED")) ∧
    fields sample_written !! "field" =
      Some (dict_get (default ∅ (cfg_data_source sample_config)) "field"
                     (JStr "5. adjusted close")) ∧
    fields sample_written !! "earliest_date" =
      Some (JStr (dict_get (default ∅ (cfg_data_window sample_config)) "earliest_date"
                           "2025-07-01")).
Proof.
  apply (written_document_is_stamped sample_world sample_config sample_written);
    [reflexivity |].
  vm_compute. do 4 apply list_elem_of_further. apply list_elem_of_here.
Defined.

(** C8. A run over [n] tickers that ends without a fatal error pauses
    exactly [n] times, for the fixed delay, once after the step of each
    ticker, the last included. *)
Theorem one_pause_per_ticker (w : world) (cfg : config) :
  config_file w = Some cfg →
  outcome (main w) = Ok 0 →
  pauses (trace (main w)) = replicate (length (tickers_of cfg)) PAUSE_SECONDS ∧
  ∃ tail, trace (main w) = paced (tickers_of cfg) ++ tail ∧ pauses tail = [].
Proof.
  intros Hcfg Hok. destruct (main_ok_inv w cfg 0 Hcfg Hok) as (st & _ & Hmain).
  rewrite Hmain.
  assert (Htail : ∃ tail, trace (persist w cfg (paced (tickers_of cfg)) st)
                          = paced (tickers_of cfg) ++ tail ∧ pauses tail = []).
  { unfold persist. destruct (updated_any st); [by eexists |].
    destruct (prices_file w); [| by eexists].
    exists []. by rewrite app_nil_r. }
  destruct Htail as (tail & Htr & Hp). split; [| by exists tail].
  rewrite Htr. unfold pauses in *. rewrite flat_map_app, Hp, app_nil_r.
  apply pauses_paced.
Qed.

(** C8 in [sample_world], with two tickers. *)
Lemma one_pause_per_ticker_witness :
  pauses (trace (main sample_world)) = replicate 2%nat 13 ∧
  ∃ tail, trace (main sample_world) = paced ["SPY"; "QQQ"] ++ tail ∧ pauses tail = [].
Proof.
  apply (one_pause_per_ticker sample_world sample_config); reflexivity.
Defined.

(** C9. With a configuration whose ticker list is empty or absent the run
    aborts with a fatal error before any provider call, and the dataset
    file is neither written nor changed. *)
Theorem no_tickers_aborts (w : world) (cfg : config) :
  config_file w = Some cfg →
  cfg_tickers cfg = None ∨ cfg_tickers cfg = Some [] →
  ∃ e,
    outcome (main w) = Raise e ∧
    kind_of e = Some ConfigError ∧
    (av_key_of w ≠ "" → e = RuntimeError NoTickers) ∧
    trace (main w) = [] ∧
    prices_after (main w) = prices_file w.
Proof.
  intros Hcfg Htk.
  assert (Hnone : tickers_of cfg = []).
  { unfold tickers_of. by destruct Htk as [-> | ->]. }
  unfold main. rewrite Hcfg, Hnone.
  destruct (String.eqb_spec (av_key_of w) "") as [Heq | Hne]; eexists; by repeat split.
Qed.

(** C9 in [no_tickers_world]. *)
Lemma no_tickers_aborts_witness :
  ∃ e,
    outcome (main no_tickers_world) = Raise e ∧
    kind_of e = Some ConfigError ∧
    (av_key_of no_tickers_world ≠ "" → e = RuntimeError NoTickers) ∧
    trace (main no_tickers_world) = [] ∧
    prices_after (main no_tickers_world) = prices_file no_tickers_world.
Proof.
  apply (no_tickers_aborts no_tickers_world
           {| cfg_data_window := None; cfg_tickers := Some []; cfg_data_source := None |});
    [reflexivity | by right].
Defined.

Lemma dump_all_empty_series (cs : gmap string Series) sym :
  dump_all cs !! sym = Some ∅ → cs !! sym = Some ∅.
Proof.
  unfold dump_all, dump_series. rewrite lookup_fmap.
  destruct (cs !! sym) as [s |]; [| discriminate]. simpl.
  intros [= H]. by apply fmap_empty_inv in H as ->.
Qed.

Lemma load_all_empty_series (m : gmap string (gmap string float)) sym :
  load_all m !! sym = Some ∅ → m !! sym = Some ∅.
Proof.
  unfold load_all. rewrite map_lookup_imap.
  destruct (m !! sym) as [s |]; [| discriminate]. simpl.
  intros [= H]. f_equal. apply map_eq. intros d. rewrite lookup_empty.
  assert (Hd : load_series sym s !! d = None) by (rewrite H; apply lookup_empty).
  unfold load_series in Hd. rewrite map_lookup_imap in Hd.
  by destruct (s !! d).
Qed.

(** C10. An iteration whose merged series equals the existing one leaves
    the series mapping in memory as it was.  So a ticker that has no series
    yet and whose incoming series is empty gets no entry; no iteration
    creates an empty series, and a written document, on a first run too,
    holds an empty series only where the file before the run did. *)
Theorem unchanged_ticker_leaves_series (w : world) :
  (∀ av_cfg earliest_date i sym st evs st' av_json incoming,
     process_ticker w av_cfg earliest_date i sym st = (evs, Ok st') →
     fetch_daily_adjusted w i sym av_cfg = Ok av_json →
     extract_adjusted_close_series i av_json earliest_date = Ok incoming →
     (dict_ne (merge_series (dict_get (current_series st) sym ∅) incoming)
              (dict_get (current_series st) sym ∅) = false →
      current_series st' = current_series st) ∧
     (current_series st !! sym = None → incoming = ∅ →
      current_series st' !! sym = None) ∧
     (∀ s, current_series st' !! s = Some ∅ → current_series st !! s = Some ∅)) ∧
  (∀ doc m sym,
     EvWrite doc ∈ trace (main w) → series doc = Some m → m !! sym = Some ∅ →
     ∃ f m0, prices_file w = Some f ∧ series f = Some m0 ∧ m0 !! sym = Some ∅).
Proof.
  split.
  - intros av_cfg earliest_date i sym st evs st' j inc Hstep Hj Hinc.
    pose proof (fun s => process_ticker_no_empty _ _ _ _ _ _ _ _ s Hstep) as Hempty.
    apply process_ticker_ok in Hstep as (_ & j' & inc' & Hj' & Hinc' & Hst').
    rewrite Hj in Hj'. injection Hj' as <-. rewrite Hinc in Hinc'. injection Hinc' as <-.
    simpl in Hst'. split; [| split].
    + intros Hne. rewrite Hne in Hst'. by subst st'.
    + intros Hnone ->. unfold dict_get in Hst'. rewrite Hnone in Hst'. simpl in Hst'.
      assert (Hm : merge_series ∅ ∅ = (∅ : Series)).
      { rewrite merge_series_union. apply (left_id_L ∅ (∪)). }
      rewrite Hm in Hst'. unfold dict_ne in Hst'. rewrite dict_eq_refl in Hst'.
      simpl in Hst'. by subst st'.
    + intros s. apply Hempty.
  - intros doc m sym Hdoc Hm Hsym.
    destruct (config_file w) as [cfg |] eqn:Hcfg.
    2:{ unfold main in Hdoc. rewrite Hcfg in Hdoc. by apply elem_of_nil in Hdoc. }
    assert (Hok : outcome (main w) = Ok 0).
    { revert Hdoc. unfold main. rewrite Hcfg.
      destruct (String.eqb (av_key_of w) ""); [simpl; by intros ?%elem_of_nil |].
      destruct (tickers_of cfg) as [| t ts] eqn:Htk; [simpl; by intros ?%elem_of_nil |].
      destruct (for_tickers _ _ _ _ _ _) as [evs [st | e]] eqn:Hloop.
      - intros _. apply persist_outcome.
      - simpl. intros H.
        destruct (for_tickers_raise _ _ _ _ _ _ _ _ Hloop)
          as (pre & s & post & st' & _ & _ & _ & ->).
        apply elem_of_app in H as [H | H].
        + by apply paced_no_write in H.
        + apply list_elem_of_singleton in H. discriminate. }
    destruct (main_ok_inv w cfg 0 Hcfg Hok) as (st & Hloop & Hmain).
    rewrite Hmain in Hdoc. destruct (persist_trace w cfg _ st doc Hdoc) as [_ ->].
    simpl in Hm. injection Hm as <-. apply dump_all_empty_series in Hsym.
    apply (for_tickers_no_empty _ _ _ _ _ _ _ _ _ Hloop) in Hsym.
    unfold initial_state, current_of in Hsym. simpl in Hsym.
    destruct (prices_file w) as [f |]; simpl in Hsym.
    + destruct (series f) as [m0 |] eqn:Hf; simpl in Hsym.
      * exists f, m0. split; [done | split; [done |]]. by apply load_all_empty_series.
      * by rewrite lookup_empty in Hsym.
    + by rewrite lookup_empty in Hsym.
Qed.

(** C10 on the one iteration of [quiet_world]. *)
Lemma unchanged_ticker_leaves_series_witness :
  (dict_ne (merge_series (dict_get (current_series (initial_state quiet_world)) "SPY" ∅) ∅)
           (dict_get (current_series (initial_state quiet_world)) "SPY" ∅) = false →
   current_series (initial_state quiet_world) = current_series (initial_state quiet_world)) ∧
  (current_series (initial_state quiet_world) !! "SPY" = None → (∅ : Series) = ∅ →
   current_series (initial_state quiet_world) !! "SPY" = None) ∧
  (∀ s, current_series (initial_state quiet_world) !! s = Some ∅ →
        current_series (initial_state quiet_world) !! s = Some ∅).
Proof.
  apply (proj1 (unchanged_ticker_leaves_series quiet_world)
           (av_config_of quiet_world) "2025-07-01" 1%nat "SPY" (initial_state quiet_world)
           [EvFetch "SPY"; EvSleep PAUSE_SECONDS] (initial_state quiet_world)
           stale_response ∅); reflexivity.
Defined.

(** The first run of [quiet_world] writes the file, with no series in it. *)
Example first_run_creates_no_key :
  ∃ doc, trace (main quiet_world) = [EvFetch "SPY"; EvSleep 13; EvWrite doc] ∧
         series doc = Some ∅.
Proof. eexists. split; reflexivity. Qed.

(** An integer beyond the range of a double makes [float] raise
    [OverflowError], which the extractor does not catch. *)
Example extract_raises_on_huge_integer :
  extract_adjusted_close_series 1
    (response_of {[ "2025-07-01" := bundle_of (JInt (10 ^ 400)) ]}) "2025-07-01"
  = Raise OverflowError.
Proof. vm_compute. reflexivity. Qed.

(** A run that finds the file and nothing new leaves it untouched. *)
Example settled_run_writes_nothing :
  main settled_world =
  {| outcome := Ok 0; trace := [EvFetch "SPY"; EvSleep 13];
     prices_after := prices_file settled_world |}.
Proof. vm_compute. reflexivity. Qed.

(** A NaN that is stored stays equal to itself, being the same object, but
    differs from the NaN of a later response: that run writes again. *)
Example stored_nan_compares_by_identity :
  let existing : Series := {[ "2025-07-01" := PyFloat (OnLoad "SPY" "2025-07-01") S754_nan ]} in
  let incoming : Series := {[ "2025-07-01" := PyFloat (OnFetch 1 "2025-07-01") S754_nan ]} in
  dict_ne (merge_series existing ∅) existing = false ∧
  dict_ne (merge_series existing incoming) existing = true.
Proof. split; vm_compute; reflexivity. Qed.

(** * Further properties *)

(** ** Comparison and merging *)

Lemma dict_eq_spec (a b : Series) :
  dict_eq a b = true ↔
  dom a = dom b ∧
  ∀ k va vb, a !! k = Some va → b !! k = Some vb → obj_eq va vb = true.
Proof.
  unfold dict_eq. rewrite andb_true_iff, bool_decide_eq_true, forallb_forall. split.
  - intros [Hsize Hall].
    assert (Hin : ∀ k va, a !! k = Some va →
                    ∃ vb, b !! k = Some vb ∧ obj_eq va vb = true).
    { intros k va Hk. specialize (Hall (k, va)). simpl in Hall.
      destruct (b !! k) as [vb |].
      - exists vb. split; [done |]. apply Hall.
        by apply list_elem_of_In, elem_of_map_to_list.
      - exfalso. assert (false = true); [| discriminate]. apply Hall.
        by apply list_elem_of_In, elem_of_map_to_list. }
    split.
    + apply set_subseteq_size_eq.
      * intros k [va Hk]%elem_of_dom. destruct (Hin k va Hk) as (vb & Hb & _).
        apply elem_of_dom. by exists vb.
      * rewrite !size_dom. lia.
    + intros k va vb Ha Hb. destruct (Hin k va Ha) as (vb' & Hb' & Heq). congruence.
  - intros [Hdom Hall]. split.
    + by rewrite <- !(size_dom (D := gset string)), Hdom.
    + intros [k va] Hk. apply list_elem_of_In, elem_of_map_to_list in Hk.
      assert (Hb : is_Some (b !! k)).
      { apply elem_of_dom. rewrite <- Hdom. apply elem_of_dom. by exists va. }
      destruct Hb as [vb Hb]. rewrite Hb. by apply (Hall k va vb).
Qed.

(** The incoming point at [d] is already in [E], with an equal value. *)
Lemma merge_unchanged_iff (E I : Series) :
  dict_ne (merge_series E I) E = false ↔
  map_Forall (fun d v => match E !! d with
                         | Some u => obj_eq v u
                         | None => false
                         end = true) I.
Proof.
  unfold dict_ne. rewrite negb_false_iff, dict_eq_spec. split.
  - intros [Hdom Hall] d v Hd.
    assert (Hm : merge_series E I !! d = Some v) by (by rewrite merge_series_lookup, Hd).
    assert (He : is_Some (E !! d)).
    { apply elem_of_dom. rewrite <- Hdom. apply elem_of_dom. by exists v. }
    destruct He as [u Hu]. rewrite Hu. by apply (Hall d v u).
  - intros Hall. split.
    + rewrite merge_series_union, dom_union_L. apply (anti_symm (⊆)); [| apply union_subseteq_r].
      intros d [Hd | Hd]%elem_of_union; [| done].
      apply elem_of_dom in Hd as [v Hv]. specialize (Hall d v Hv). simpl in Hall.
      destruct (E !! d) as [u |] eqn:Hu; [| done]. apply elem_of_dom. by exists u.
    + intros d va vb Ha Hb. rewrite merge_series_lookup in Ha.
      destruct (I !! d) as [v |] eqn:Hv.
      * injection Ha as <-. specialize (Hall d v Hv). simpl in Hall. by rewrite Hb in Hall.
      * rewrite Ha in Hb. injection Hb as <-. apply obj_eq_refl.
Qed.

(** X1. The change flag [merged != existing] is raised exactly when some
    incoming date is new to the existing series or carries a value that is
    not equal to the existing one. *)
Theorem changed_iff_new_or_different (E I : Series) :
  dict_ne (merge_series E I) E = true ↔
  ∃ d v, I !! d = Some v ∧
         (E !! d = None ∨ ∃ u, E !! d = Some u ∧ obj_eq v u = false).
Proof.
  rewrite <- not_false_iff_true, merge_unchanged_iff. split.
  - intros Hno. apply map_not_Forall in Hno; [| apply _].
    destruct Hno as (d & v & Hd & Hbad). simpl in Hbad. exists d, v. split; [done |].
    destruct (E !! d) as [u |]; [| by left].
    right. exists u. split; [done |]. by destruct (obj_eq v u).
  - intros (d & v & Hd & Hbad) Hall. specialize (Hall d v Hd). simpl in Hall.
    destruct Hbad as [Hnone | (u & Hu & Hne)].
    + by rewrite Hnone in Hall.
    + rewrite Hu in Hall. congruence.
Qed.

(** X2. Merging two incoming batches one after the other is merging the
    second into the first and the result into the existing series; an empty
    batch changes nothing, and an empty existing series yields the batch. *)
Theorem merge_series_composes (E I1 I2 : Series) :
  merge_series (merge_series E I1) I2 = merge_series E (merge_series I1 I2) ∧
  merge_series E ∅ = E ∧
  merge_series ∅ I1 = I1.
Proof.
  rewrite !merge_series_union. split; [| split].
  - by rewrite (assoc_L (∪)).
  - apply (left_id_L ∅ (∪)).
  - apply (right_id_L ∅ (∪)).
Qed.

(** X3. A merge never loses points: the merged series has at least as many
    dates as either argument and at most as many as both together, the
    numbers the script logs. *)
Theorem merge_series_size (E I : Series) :
  (size E ≤ size (merge_series E I))%nat ∧
  (size I ≤ size (merge_series E I))%nat ∧
  (size (merge_series E I) ≤ size E + size I)%nat.
Proof.
  rewrite <- !(size_dom (D := gset string)), merge_series_union, dom_union_L.
  split; [| split].
  - apply subseteq_size, union_subseteq_r.
  - apply subseteq_size, union_subseteq_l.
  - rewrite size_union_alt.
    assert (size (dom E ∖ dom I) ≤ size (dom E))%nat; [| lia].
    apply subseteq_size. intros d Hd. by apply elem_of_difference in Hd as [Hd _].
Qed.

(** ** The extractor: when it returns, and what it raises *)

Lemma py_float_raises site adj e :
  py_float site adj = Raise e → e = ValueError ∨ e = TypeError ∨ e = OverflowError.
Proof.
  destruct adj as [| b | n | f | s | l | m]; simpl; try (intros [= <-]; tauto).
  - destruct b; vm_compute; discriminate.
  - unfold float_of_int. destruct (binary_normalize prec emax n 0 false); simpl;
      intros [= <-]; tauto.
  - destruct (float_of_string s); intros [= <-]; tauto.
Qed.

Lemma extract_items_raises call cutoff items : ∀ out e,
  extract_items call cutoff items out = Raise e →
  e = AttributeError ∨ e = TypeError ∨ e = OverflowError.
Proof.
  induction items as [| [d fields] rest IH]; intros out e; [simpl; discriminate |].
  simpl. destruct (String.ltb d cutoff); [apply IH |].
  destruct fields as [| b | n | f | s | l | m]; simpl; try (intros [= <-]; tauto).
  destruct (dict_get m ADJUSTED_CLOSE_KEY JNull) as [| b | n | f | s | l | m'] eqn:Hadj;
    [apply IH | | | | | |].
  all: match goal with
       | |- context [py_float ?site ?a] =>
           destruct (py_float site a) as [v | e0] eqn:Hv; [apply IH |];
           destruct (py_float_raises _ _ _ Hv) as [-> | [-> | ->]];
           [apply IH | intros [= <-]; tauto | intros [= <-]; tauto]
       end.
Qed.

Lemma extract_items_ok_inv call cutoff items : ∀ out res,
  extract_items call cutoff items out = Ok res →
  forallb (fun '(d, fields) => String.ltb d cutoff || bundle_ok fields) items = true.
Proof.
  induction items as [| [d fields] rest IH]; intros out res; [done |].
  simpl. destruct (String.ltb d cutoff); simpl; [apply IH |].
  destruct fields as [| b | n | f | s | l | m]; simpl; try discriminate.
  destruct (dict_get m ADJUSTED_CLOSE_KEY JNull) as [| b | n | f | s | l | m'] eqn:Hadj;
    simpl; try discriminate; try apply IH.
  - destruct b; apply IH.
  - destruct (float_of_int n) as [f | e] eqn:Hn; simpl; [apply IH |].
    assert (e = OverflowError) as ->; [| discriminate].
    revert Hn. unfold float_of_int.
    destruct (binary_normalize prec emax n 0 false); congruence.
  - destruct (float_of_string s); apply IH.
Qed.

(** X4. The extractor returns, for a response and a cutoff, exactly when
    the response is well formed from the cutoff on: the container is an
    object and every bundle dated on or after the cutoff is an object whose
    adjusted-close field [float] converts or rejects with [ValueError].
    Bundles before the cutoff are never looked into. *)
Theorem extract_returns_iff_well_formed (call : nat) (av_json : gmap string json)
    (cutoff : string) :
  (∃ out, extract_adjusted_close_series call av_json cutoff = Ok out) ↔
  well_formed cutoff av_json = true.
Proof.
  split.
  - intros [out Hout]. destruct (extract_returns_inv _ _ _ _ Hout) as [series Hs].
    rewrite (extract_series _ _ _ _ Hs) in Hout.
    unfold well_formed. rewrite Hs. by apply (extract_items_ok_inv _ _ _ _ _ Hout).
  - unfold well_formed. intros Hwf.
    destruct (av_json !! TIME_SERIES_KEY) as [[| | | | | |series] |] eqn:Hs;
      try discriminate.
    rewrite (extract_series _ _ _ _ Hs). by apply extract_items_returns.
Qed.

Lemma extract_raises_present call av_json cutoff e :
  is_Some (av_json !! TIME_SERIES_KEY) →
  extract_adjusted_close_series call av_json cutoff = Raise e →
  e = AttributeError ∨ e = TypeError ∨ e = OverflowError.
Proof.
  intros [series Hs]. unfold extract_adjusted_close_series, dict_item. rewrite Hs. simpl.
  destruct series; simpl; try (intros [= <-]; tauto). apply extract_items_raises.
Qed.

(** X5. A failed extraction is one of four exceptions: [KeyError] for a
    missing container, [AttributeError] for a container or bundle that is
    not an object, [TypeError] or [OverflowError] from [float].  The
    [ValueError] of [float] never leaves the extractor. *)
Theorem extract_raises_only (call : nat) (av_json : gmap string json)
    (cutoff : string) (e : exn) :
  extract_adjusted_close_series call av_json cutoff = Raise e →
  (e = KeyError TIME_SERIES_KEY ∧ av_json !! TIME_SERIES_KEY = None) ∨
  (is_Some (av_json !! TIME_SERIES_KEY) ∧
   (e = AttributeError ∨ e = TypeError ∨ e = OverflowError)).
Proof.
  destruct (av_json !! TIME_SERIES_KEY) as [series |] eqn:Hs.
  - intros H. right. split; [by eexists |].
    apply (extract_raises_present call av_json cutoff); [by rewrite Hs | done].
  - unfold extract_adjusted_close_series, dict_item. rewrite Hs. simpl.
    intros [= <-]. by left.
Qed.

(** ** Runs that fail *)

(** A run that raises stopped before its loop or in one iteration of it. *)
Lemma main_raise_inv (w : world) (e : exn) :
  outcome (main w) = Raise e →
  (main w = abort w [] e ∧ kind_of e = Some ConfigError) ∨
  ∃ cfg pre sym post st,
    config_file w = Some cfg ∧ av_key_of w ≠ "" ∧
    tickers_of cfg = pre ++ sym :: post ∧
    for_tickers w (av_config_of w) (earliest_date_of cfg) 1 pre (initial_state w)
      = (paced pre, Ok st) ∧
    process_ticker w (av_config_of w) (earliest_date_of cfg) (S (length pre)) sym st
      = ([EvFetch sym], Raise e) ∧
    main w = abort w (paced pre ++ [EvFetch sym]) e.
Proof.
  unfold main. destruct (config_file w) as [cfg |] eqn:Hcfg.
  2:{ simpl. intros [= <-]. by left. }
  destruct (String.eqb_spec (av_key_of w) "") as [Hkey | Hkey].
  { simpl. intros [= <-]. by left. }
  destruct (tickers_of cfg) as [| t ts] eqn:Htk.
  { simpl. intros [= <-]. by left. }
  destruct (for_tickers _ _ _ _ _ _) as [evs [st | e0]] eqn:Hloop.
  { rewrite persist_outcome. discriminate. }
  simpl. intros [= <-]. right.
  destruct (for_tickers_raise _ _ _ _ _ _ _ _ Hloop)
    as (pre & sym & post & st & Heq & Hpre & Hstep & ->).
  exists cfg, pre, sym, post, st. by rewrite <- Heq.
Qed.


Lemma fetch_returns w call sym cfg j :
  fetch_daily_adjusted w call sym cfg = Ok j →
  provider w call (request_params sym cfg) = HttpJson j ∧
  j !! "Error Message" = None ∧ j !! "Note" = None ∧ is_Some (j !! TIME_SERIES_KEY).
Proof.
  unfold fetch_daily_adjusted.
  destruct (provider w call _) as [| j'] eqn:Hp; [discriminate |].
  unfold dict_item, dict_in.
  destruct (j' !! "Error Message") eqn:H1; [simpl; discriminate |].
  destruct (j' !! "Note") eqn:H2; [simpl; discriminate |].
  destruct (j' !! TIME_SERIES_KEY) eqn:Hts; simpl; [| discriminate].
  intros [= <-]. rewrite Hts. split; [done | split; [done | split; [done | by eexists]]].
Qed.

(** X6. The fetch returns a response exactly when the transport delivered
    it and it passes the three checks: no error indicator, no throttling
    note, and the series container present.  It returns the response as it
    came. *)
Theorem fetch_returns_iff (w : world) (call : nat) (sym : string) (cfg : AvConfig)
    (j : gmap string json) :
  fetch_daily_adjusted w call sym cfg = Ok j ↔
  provider w call (request_params sym cfg) = HttpJson j ∧
  j !! "Error Message" = None ∧ j !! "Note" = None ∧ is_Some (j !! TIME_SERIES_KEY).
Proof.
  split; [apply fetch_returns |].
  intros (Hp & H1 & H2 & [v Hts]). unfold fetch_daily_adjusted, dict_in.
  by rewrite Hp, H1, H2, Hts.
Qed.

(** X7. A run that fails, whatever the cause, has written nothing and
    leaves the dataset file as it found it; it failed either before any
    request or right after the request for one ticker, the tickers before
    it having been fetched and paused for, the tickers after it not at
    all. *)
Theorem failed_run_leaves_file (w : world) (e : exn) :
  outcome (main w) = Raise e →
  prices_after (main w) = prices_file w ∧
  (∀ doc, EvWrite doc ∉ trace (main w)) ∧
  (trace (main w) = [] ∨
   ∃ cfg pre sym post,
     config_file w = Some cfg ∧ tickers_of cfg = pre ++ sym :: post ∧
     trace (main w) = paced pre ++ [EvFetch sym]).
Proof.
  intros Hraise.
  destruct (main_raise_inv w e Hraise)
    as [[-> _] | (cfg & pre & sym & post & st & Hcfg & _ & Htk & _ & _ & ->)]; simpl.
  - split; [done | split; [| by left]]. intros doc. apply not_elem_of_nil.
  - split; [done | split].
    + intros doc H. apply elem_of_app in H as [H | H].
      * by apply paced_no_write in H.
      * apply list_elem_of_singleton in H. discriminate.
    + right. by exists cfg, pre, sym, post.
Qed.


(** ** The API key and the requests *)

Lemma lstrip_nil_iff (space : ascii → bool) (s : list ascii) :
  lstrip space s = [] ↔ Forall (fun c => space c = true) s.
Proof.
  induction s as [| c s IH]; simpl; [by split |].
  destruct (space c) eqn:Hc.
  - rewrite IH. split; [by constructor | by inversion 1].
  - split; [discriminate | inversion 1; congruence].
Qed.

Lemma lstrip_head (space : ascii → bool) (s : list ascii) c rest :
  lstrip space s = c :: rest → space c = false.
Proof.
  induction s as [| c0 s IH]; simpl; [discriminate |].
  destruct (space c0) eqn:Hc; [done |]. by intros [= <- _].
Qed.

Lemma strip_nil_iff (space : ascii → bool) (s : list ascii) :
  strip space s = [] ↔ Forall (fun c => space c = true) s.
Proof.
  unfold strip. split.
  - intros H. apply (f_equal (@rev ascii)) in H. rewrite rev_involutive in H. simpl in H.
    apply lstrip_nil_iff in H. apply lstrip_nil_iff.
    destruct (lstrip space s) as [| c rest] eqn:Hs; [done |].
    pose proof (lstrip_head _ _ _ _ Hs) as Hc.
    apply Forall_rev in H. rewrite rev_involutive in H. inversion H; congruence.
  - intros H. apply lstrip_nil_iff in H. by rewrite H.
Qed.

Lemma str_strip_empty_iff (s : string) :
  str_strip s = "" ↔ Forall (fun c => is_str_space c = true) (list_ascii_of_string s).
Proof.
  unfold str_strip. rewrite <- strip_nil_iff. split.
  - intros H. apply (f_equal list_ascii_of_string) in H.
    by rewrite list_ascii_of_string_of_list_ascii in H.
  - by intros ->.
Qed.

(** X9. The run fails for want of an API key exactly when the
    configuration file exists and the environment variable is unset, empty
    or made of whitespace only: the key is stripped before it is tested,
    and tested before the tickers are read. *)
Theorem missing_api_key_iff (w : world) :
  outcome (main w) = Raise (RuntimeError MissingApiKey) ↔
  is_Some (config_file w) ∧
  Forall (fun c => is_str_space c = true)
         (list_ascii_of_string (default "" (environ_api_key w))).
Proof.
  rewrite <- str_strip_empty_iff. fold (av_key_of w). split.
  - unfold main. destruct (config_file w) as [cfg |]; [| discriminate].
    destruct (String.eqb_spec (av_key_of w) "") as [Hkey | Hkey]; [by eauto |].
    destruct (tickers_of cfg); [discriminate |].
    destruct (for_tickers _ _ _ _ _ _) as [evs [st | e]] eqn:Hloop.
    { rewrite persist_outcome. discriminate. }
    simpl. intros [= ->]. exfalso.
    destruct (for_tickers_raise _ _ _ _ _ _ _ _ Hloop)
      as (pre & sym & post & st & _ & _ & Hstep & _).
    apply process_ticker_raise in Hstep as [_ [Hf | (j & Hj & Hx)]].
    + revert Hf. unfold fetch_daily_adjusted. destruct (provider w _ _) as [| j];
        [discriminate |].
      unfold dict_item. destruct (dict_in "Error Message" j) eqn:H1.
      { destruct (dict_in_lookup _ _ H1) as [v ->]. discriminate. }
      destruct (dict_in "Note" j) eqn:H2.
      { destruct (dict_in_lookup _ _ H2) as [v ->]. discriminate. }
      destruct (negb (dict_in TIME_SERIES_KEY j)); discriminate.
    + apply fetch_returns in Hj as (_ & _ & _ & Hts).
      destruct (extract_raises_present _ _ _ _ Hts Hx) as [[=] | [[=] | [=]]].
  - intros [[cfg Hcfg] Hkey]. unfold main. by rewrite Hcfg, Hkey.
Qed.

Lemma for_tickers_provider_ext (w w' : world) av_cfg earliest_date tickers : ∀ i st,
  (∀ k sym, tickers !! k = Some sym →
     provider w' (i + k) (request_params sym av_cfg)
     = provider w (i + k) (request_params sym av_cfg)) →
  for_tickers w' av_cfg earliest_date i tickers st
  = for_tickers w av_cfg earliest_date i tickers st.
Proof.
  induction tickers as [| sym rest IH]; intros i st Hagree; [done |].
  simpl.
  assert (Hstep : process_ticker w' av_cfg earliest_date i sym st
                  = process_ticker w av_cfg earliest_date i sym st).
  { unfold process_ticker, fetch_daily_adjusted.
    specialize (Hagree 0%nat sym eq_refl). rewrite Nat.add_0_r in Hagree.
    by rewrite Hagree. }
  rewrite Hstep. destruct (process_ticker w _ _ _ _ _) as [evs [st' | e]]; [| done].
  rewrite (IH (S i) st'); [done |].
  intros k s Hk. specialize (Hagree (S k) s Hk).
  by replace (S i + k)%nat with (i + S k)%nat by lia.
Qed.

(** X10. A run asks the provider one question per ticker and no other: the
    [i]-th request is for the [i]-th configured ticker, for the daily
    adjusted series, in full, with the stripped API key.  Two providers
    that answer these requests alike give the same run. *)
Theorem main_asks_one_request_per_ticker (w w' : world) (cfg : config) :
  config_file w = Some cfg →
  config_file w' = Some cfg →
  environ_api_key w' = environ_api_key w →
  prices_file w' = prices_file w →
  utc_clock w' = utc_clock w →
  (∀ i sym, tickers_of cfg !! i = Some sym →
     let query := {| p_function := "TIME_SERIES_DAILY_ADJUSTED";
                     p_symbol := sym;
                     p_outputsize := "full";
                     p_apikey := str_strip (default "" (environ_api_key w)) |} in
     provider w' (S i) query = provider w (S i) query) →
  main w' = main w.
Proof.
  intros Hcfg Hcfg' Henv Hfile Hclock Hagree.
  assert (Hkey : av_key_of w' = av_key_of w) by (unfold av_key_of; by rewrite Henv).
  assert (Hav : av_config_of w' = av_config_of w) by (unfold av_config_of; by rewrite Hkey).
  assert (Hcur : current_of w' = current_of w) by (unfold current_of; by rewrite Hfile).
  assert (Hst : initial_state w' = initial_state w)
    by (unfold initial_state; by rewrite Hcur).
  unfold main. rewrite Hcfg, Hcfg', Hkey, Hav, Hst.
  rewrite (for_tickers_provider_ext w w' (av_config_of w) (earliest_date_of cfg)
             (tickers_of cfg) 1 (initial_state w));
    [| intros k sym Hk; exact (Hagree k sym Hk)].
  unfold abort, persist. by rewrite Hfile, Hclock, Hcur.
Qed.

(** ** What a run does to the data on file *)

Lemma lookup_load_series sym (x : gmap string float) d :
  load_series sym x !! d = PyFloat (OnLoad sym d) <$> x !! d.
Proof. unfold load_series. rewrite map_lookup_imap. by destruct (x !! d). Qed.

Lemma lookup_load_all (m : gmap string (gmap string float)) sym :
  load_all m !! sym = load_series sym <$> m !! sym.
Proof. unfold load_all. rewrite map_lookup_imap. by destruct (m !! sym). Qed.

Lemma lookup_dump_series (x : Series) d : dump_series x !! d = fval <$> x !! d.
Proof. unfold dump_series. apply lookup_fmap. Qed.

Lemma lookup_dump_all (cs : gmap string Series) sym :
  dump_all cs !! sym = dump_series <$> cs !! sym.
Proof. unfold dump_all. apply lookup_fmap. Qed.

Lemma dump_load_series sym (x : gmap string float) : dump_series (load_series sym x) = x.
Proof.
  apply map_eq. intros d. rewrite lookup_dump_series, lookup_load_series.
  by destruct (x !! d).
Qed.

Lemma dump_load_all (m : gmap string (gmap string float)) : dump_all (load_all m) = m.
Proof.
  apply map_eq. intros sym. rewrite lookup_dump_all, lookup_load_all.
  destruct (m !! sym) as [x |]; simpl; [| done]. by rewrite dump_load_series.
Qed.

(** A run that wrote went through its loop and wrote the stamped document. *)
Lemma main_wrote_inv (w : world) (cfg : config) (doc : document float) :
  config_file w = Some cfg → EvWrite doc ∈ trace (main w) →
  ∃ st,
    for_tickers w (av_config_of w) (earliest_date_of cfg) 1 (tickers_of cfg)
                (initial_state w) = (paced (tickers_of cfg), Ok st) ∧
    doc = dump_json (stamp cfg (earliest_date_of cfg)
                           (utc_clock w (paced (tickers_of cfg)))
                           (current_of w) (current_series st)).
Proof.
  intros Hcfg Hdoc.
  assert (Hok : outcome (main w) = Ok 0).
  { destruct (outcome (main w)) as [z | e] eqn:Hout.
    - destruct (main_ok_inv w cfg z Hcfg Hout) as (st & _ & Hmain).
      rewrite <- Hout, Hmain. apply persist_outcome.
    - exfalso.
      destruct (main_raise_inv w e Hout)
        as [[Hmain _] | (c & pre & sym & post & st & _ & _ & _ & _ & _ & Hmain)];
        rewrite Hmain in Hdoc; simpl in Hdoc.
      + by apply elem_of_nil in Hdoc.
      + apply elem_of_app in Hdoc as [H | H].
        * by apply paced_no_write in H.
        * apply list_elem_of_singleton in H. discriminate. }
  destruct (main_ok_inv w cfg 0 Hcfg Hok) as (st & Hloop & Hmain).
  exists st. split; [done |]. rewrite Hmain in Hdoc.
  by destruct (persist_trace w cfg _ st doc Hdoc) as [_ ->].
Qed.

(** One iteration leaves the series mapping alone or sets the series of its
    ticker to the merge. *)
Lemma process_ticker_series w av_cfg earliest_date i sym st evs st' :
  process_ticker w av_cfg earliest_date i sym st = (evs, Ok st') →
  ∃ av_json incoming,
    fetch_daily_adjusted w i sym av_cfg = Ok av_json ∧
    extract_adjusted_close_series i av_json earliest_date = Ok incoming ∧
    (current_series st' = current_series st ∨
     current_series st' =
       <[sym := merge_series (dict_get (current_series st) sym ∅) incoming]>
         (current_series st)).
Proof.
  intros H. apply process_ticker_ok in H as (_ & j & inc & Hj & Hinc & Hst').
  exists j, inc. split; [done | split; [done |]]. simpl in Hst'.
  destruct (dict_ne _ _); subst st'; [by right | by left].
Qed.

Section Frame.
Variable w : world.
Variable av_cfg : AvConfig.
Variable earliest_date : string.

(** The loop touches the series of its tickers only, and removes no date. *)
Lemma for_tickers_keeps tickers : ∀ i st evs st',
  for_tickers w av_cfg earliest_date i tickers st = (evs, Ok st') →
  (∀ s, s ∉ tickers → current_series st' !! s = current_series st !! s) ∧
  (∀ s x, current_series st !! s = Some x →
          ∃ x', current_series st' !! s = Some x' ∧
                ∀ d, is_Some (x !! d) → is_Some (x' !! d)).
Proof.
  induction tickers as [| sym rest IH]; intros i st evs st' H.
  { simpl in H. injection H as _ <-. split; [done |]. intros s x Hs. by exists x. }
  simpl in H.
  destruct (process_ticker w av_cfg earliest_date i sym st) as [e1 [st1 | e]] eqn:Hstep;
    [| simpl in H; discriminate].
  destruct (for_tickers w av_cfg earliest_date (S i) rest st1) as [e2 r2] eqn:Hrest.
  injection H as _ ->. destruct (IH _ _ _ _ Hrest) as [IH1 IH2].
  apply process_ticker_series in Hstep as (j & inc & _ & _ & Hst1).
  split.
  - intros s [Hne Hs]%not_elem_of_cons. rewrite (IH1 s Hs).
    destruct Hst1 as [-> | ->]; [done |]. by rewrite lookup_insert_ne.
  - intros s x Hx.
    assert (Hmid : ∃ x1, current_series st1 !! s = Some x1 ∧
                         ∀ d, is_Some (x !! d) → is_Some (x1 !! d)).
    { destruct Hst1 as [-> | ->]; [by exists x |].
      destruct (decide (sym = s)) as [<- | Hne].
      - rewrite lookup_insert_eq. eexists. split; [done |].
        intros d Hd. rewrite merge_series_lookup. unfold dict_get. rewrite Hx. simpl.
        by destruct (inc !! d).
      - rewrite lookup_insert_ne by done. by exists x. }
    destruct Hmid as (x1 & Hx1 & Hsub). destruct (IH2 s x1 Hx1) as (x' & Hx' & Hsub').
    exists x'. split; [done |]. intros d Hd. by apply Hsub', Hsub.
Qed.

(** Every point the loop leaves was there before, or is a point of one of
    its tickers dated on or after the cutoff. *)
Lemma for_tickers_provenance tickers : ∀ i st evs st' s x' d o,
  for_tickers w av_cfg earliest_date i tickers st = (evs, Ok st') →
  current_series st' !! s = Some x' → x' !! d = Some o →
  (∃ x, current_series st !! s = Some x ∧ x !! d = Some o) ∨
  (s ∈ tickers ∧ String.ltb d earliest_date = false).
Proof.
  induction tickers as [| sym rest IH]; intros i st evs st' s x' d o H Hs Hd.
  { simpl in H. injection H as _ <-. left. by exists x'. }
  simpl in H.
  destruct (process_ticker w av_cfg earliest_date i sym st) as [e1 [st1 | e]] eqn:Hstep;
    [| simpl in H; discriminate].
  destruct (for_tickers w av_cfg earliest_date (S i) rest st1) as [e2 r2] eqn:Hrest.
  injection H as _ ->.
  destruct (IH _ _ _ _ _ _ _ _ Hrest Hs Hd) as [(x1 & Hx1 & Hd1) | [Hin Hlt]].
  2:{ right. split; [by apply list_elem_of_further | done]. }
  apply process_ticker_series in Hstep as (j & inc & _ & Hinc & Hst1).
  destruct Hst1 as [Heq | Heq]; rewrite Heq in Hx1.
  { left. by exists x1. }
  destruct (decide (sym = s)) as [<- | Hne].
  - rewrite lookup_insert_eq in Hx1. injection Hx1 as <-.
    rewrite merge_series_lookup in Hd1. destruct (inc !! d) as [v |] eqn:Hv.
    + injection Hd1 as ->. right. split; [apply list_elem_of_here |].
      destruct (extract_returns_inv _ _ _ _ Hinc) as [series Hser].
      destruct (extract_result _ _ _ _ _ Hser Hinc) as (Hsound & _).
      by destruct (Hsound d o Hv) as (fields & _ & Hlt & _).
    + left. unfold dict_get in Hd1. destruct (current_series st !! sym) as [x |]; simpl in Hd1.
      * by exists x.
      * by rewrite lookup_empty in Hd1.
  - rewrite lookup_insert_ne in Hx1 by done. left. by exists x1.
Qed.
End Frame.

(** X11. A run that finds a dataset file and writes it again loses nothing
    of it: the series of a ticker that is not configured is written back as
    it was, every date of every series on file is still there, and every
    key of the file other than the five the run stamps keeps its value. *)
Theorem written_document_keeps_prior (w : world) (cfg : config)
    (f doc : document float) :
  config_file w = Some cfg →
  prices_file w = Some f →
  EvWrite doc ∈ trace (main w) →
  ∃ m,
    series doc = Some m ∧
    (∀ sym, sym ∉ tickers_of cfg → m !! sym = default ∅ (series f) !! sym) ∧
    (∀ sym x d, default ∅ (series f) !! sym = Some x → is_Some (x !! d) →
                ∃ x', m !! sym = Some x' ∧ is_Some (x' !! d)) ∧
    (∀ k, k ∉ ["generated_utc"; "provider"; "endpoint"; "field"; "earliest_date"] →
          fields doc !! k = fields f !! k).
Proof.
  intros Hcfg Hfile Hdoc.
  destruct (main_wrote_inv w cfg doc Hcfg Hdoc) as (st & Hloop & ->).
  destruct (for_tickers_keeps _ _ _ _ _ _ _ _ Hloop) as [Hout Hin].
  assert (Hinit : current_series (initial_state w) = load_all (default ∅ (series f))).
  { unfold initial_state, current_of. rewrite Hfile. simpl. by destruct (series f). }
  rewrite Hinit in Hout, Hin.
  exists (dump_all (current_series st)). split; [done | split; [| split]].
  - intros sym Hsym. rewrite lookup_dump_all, (Hout sym Hsym), <- lookup_dump_all.
    by rewrite dump_load_all.
  - intros sym x d Hx Hd.
    destruct (Hin sym (load_series sym x)) as (x' & Hx' & Hsub).
    { by rewrite lookup_load_all, Hx. }
    exists (dump_series x'). split; [by rewrite lookup_dump_all, Hx' |].
    rewrite lookup_dump_series. apply fmap_is_Some, Hsub.
    rewrite lookup_load_series. by apply fmap_is_Some.
  - intros k Hk. simpl. unfold current_of. rewrite Hfile. simpl.
    repeat (apply not_elem_of_cons in Hk as [? Hk]).
    by rewrite !lookup_insert_ne.
Qed.

(** X12. Every point of a written document was on file before the run with
    the same value, or belongs to a configured ticker and is dated on or
    after the cutoff: the run adds nothing else. *)
Theorem written_points_are_prior_or_fresh (w : world) (cfg : config)
    (doc : document float) (m : gmap string (gmap string float))
    (sym : string) (x : gmap string float) (d : string) (v : float) :
  config_file w = Some cfg →
  EvWrite doc ∈ trace (main w) →
  series doc = Some m → m !! sym = Some x → x !! d = Some v →
  (∃ f m0 x0, prices_file w = Some f ∧ series f = Some m0 ∧
              m0 !! sym = Some x0 ∧ x0 !! d = Some v) ∨
  (sym ∈ tickers_of cfg ∧ String.ltb d (earliest_date_of cfg) = false).
Proof.
  intros Hcfg Hdoc Hm Hx Hv.
  destruct (main_wrote_inv w cfg doc Hcfg Hdoc) as (st & Hloop & ->).
  simpl in Hm. injection Hm as <-.
  rewrite lookup_dump_all in Hx.
  destruct (current_series st !! sym) as [x' |] eqn:Hx'; [| discriminate].
  injection Hx as <-. rewrite lookup_dump_series in Hv.
  destruct (x' !! d) as [o |] eqn:Ho; [| discriminate]. injection Hv as <-.
  destruct (for_tickers_provenance _ _ _ _ _ _ _ _ _ _ _ _ Hloop Hx' Ho)
    as [(x0 & Hx0 & Hd0) | Hfresh]; [left | by right].
  revert Hx0. unfold initial_state, current_of.
  destruct (prices_file w) as [f |]; simpl; [| by rewrite lookup_empty].
  destruct (series f) as [m0 |] eqn:Hm0; simpl; [| by rewrite lookup_empty].
  rewrite lookup_load_all. destruct (m0 !! sym) as [y |] eqn:Hy; [| discriminate].
  intros [= <-]. rewrite lookup_load_series in Hd0.
  destruct (y !! d) as [u |] eqn:Hu; [| discriminate]. injection Hd0 as <-.
  by exists f, m0, y.
Qed.

(** ** The cutoff *)

Lemma ltb_compare (a b : string) : String.ltb a b = true ↔ String.compare a b = Lt.
Proof. unfold String.ltb. destruct (String.compare a b); split; congruence. Qed.

Lemma ltb_le_trans (d c1 c2 : string) :
  String.ltb d c1 = true → String.ltb c2 c1 = false → String.ltb d c2 = true.
Proof.
  rewrite !ltb_compare. intros Hd Hc.
  destruct (String.compare c1 c2) eqn:H12.
  - apply String.compare_eq_iff in H12. by subst c2.
  - apply OrderedTypeEx.String_as_OT.cmp_lt.
    eapply OrderedTypeEx.String_as_OT.lt_trans;
      by apply OrderedTypeEx.String_as_OT.cmp_lt.
  - exfalso. unfold String.ltb in Hc. by rewrite String.compare_antisym, H12 in Hc.
Qed.

(** X13. Raising the cutoff only trims the result: if the extractor returns
    for a cutoff, it returns for every later one, with the same values at
    the dates that remain and nothing at the dates before the new cutoff. *)
Theorem later_cutoff_only_trims (call : nat) (av_json : gmap string json)
    (c1 c2 : string) (out1 : Series) :
  extract_adjusted_close_series call av_json c1 = Ok out1 →
  String.ltb c2 c1 = false →
  ∃ out2,
    extract_adjusted_close_series call av_json c2 = Ok out2 ∧
    ∀ d, out2 !! d = if String.ltb d c2 then None else out1 !! d.
Proof.
  intros Hout1 Hle.
  destruct (extract_returns_inv _ _ _ _ Hout1) as [series Hs].
  assert (Hex : ∃ out2, extract_adjusted_close_series call av_json c2 = Ok out2).
  { pose proof Hout1 as Hwf. rewrite (extract_series _ _ _ _ Hs) in Hwf.
    rewrite (extract_series _ _ _ _ Hs).
    apply extract_items_returns. apply extract_items_ok_inv in Hwf.
    rewrite forallb_forall in Hwf |- *. intros [d fields] Hin.
    specialize (Hwf _ Hin). simpl in Hwf.
    destruct (String.ltb d c1) eqn:Hd; [| simpl in Hwf; by rewrite Hwf, orb_true_r].
    by rewrite (ltb_le_trans _ _ _ Hd Hle). }
  destruct Hex as [out2 Hout2]. exists out2. split; [done |].
  destruct (extract_result _ _ _ _ _ Hs Hout1) as (Hsound1 & Hcomplete1 & _).
  destruct (extract_result _ _ _ _ _ Hs Hout2) as (Hsound2 & Hcomplete2 & _).
  intros d. destruct (out2 !! d) as [v |] eqn:Hv.
  - destruct (Hsound2 d v Hv) as (fields & Hf & Hlt & Hk). rewrite Hlt. symmetry.
    apply (Hcomplete1 d fields v Hf). split; [| done].
    destruct (String.ltb d c1) eqn:Hd; [| done].
    by rewrite (ltb_le_trans _ _ _ Hd Hle) in Hlt.
  - destruct (String.ltb d c2) eqn:Hlt; [done |].
    destruct (out1 !! d) as [v |] eqn:Hv1; [| done].
    destruct (Hsound1 d v Hv1) as (fields & Hf & _ & Hk).
    rewrite (Hcomplete2 d fields v Hf) in Hv; [done |]. by split.
Qed.

(** ** Running again *)

Lemma SFeqb_refl (v : float) : is_nan v = false → SFeqb v v = true.
Proof.
  destruct v as [s | s | | s m e]; simpl; try done.
  - by destruct s.
  - intros _. unfold SFeqb, SFcompare.
    destruct s; rewrite Z.compare_refl, Pos.compare_cont_refl; done.
Qed.

Lemma nan_free_lookup (f : document float) m sym x d v :
  nan_free f = true → series f = Some m → m !! sym = Some x → x !! d = Some v →
  is_nan v = false.
Proof.
  unfold nan_free. intros Hfree Hm Hx Hv. rewrite Hm in Hfree. simpl in Hfree.
  rewrite forallb_forall in Hfree.
  assert (Hin : In (sym, x) (map_to_list m))
    by (by apply list_elem_of_In, elem_of_map_to_list).
  specialize (Hfree (sym, x) Hin). simpl in Hfree. rewrite forallb_forall in Hfree.
  assert (Hin' : In (d, v) (map_to_list x))
    by (by apply list_elem_of_In, elem_of_map_to_list).
  specialize (Hfree (d, v) Hin'). simpl in Hfree. by apply negb_true_iff.
Qed.

Lemma py_float_fid site adj v : py_float site adj = Ok v → fid v = site.
Proof.
  destruct adj as [| b | n | f | s | l | m]; simpl; try discriminate.
  - destruct (float_of_int _); simpl; [| discriminate]. by intros [= <-].
  - destruct (float_of_int n); simpl; [| discriminate]. by intros [= <-].
  - by intros [= <-].
  - destruct (float_of_string s); [| discriminate]. by intros [= <-].
Qed.

Lemma extract_fid call av_json cutoff out d v :
  extract_adjusted_close_series call av_json cutoff = Ok out →
  out !! d = Some v → fid v = OnFetch call d.
Proof.
  intros Hout Hv. destruct (extract_returns_inv _ _ _ _ Hout) as [series Hs].
  destruct (extract_result _ _ _ _ _ Hs Hout) as (Hsound & _).
  destruct (Hsound d v Hv) as (fields & _ & _ & m & adj & _ & _ & _ & Hpy).
  by apply py_float_fid in Hpy.
Qed.

(** The objects a run starts with were made by loading the file. *)
Lemma initial_state_fid (w : world) sym x d o :
  current_series (initial_state w) !! sym = Some x → x !! d = Some o →
  fid o = OnLoad sym d.
Proof.
  unfold initial_state, current_of. destruct (prices_file w) as [f |]; simpl.
  - destruct (series f) as [m |]; simpl; [| by rewrite lookup_empty].
    rewrite lookup_load_all. destruct (m !! sym) as [y |]; [| discriminate].
    intros [= <-]. rewrite lookup_load_series. destruct (y !! d); [| discriminate].
    by intros [= <-].
  - by rewrite lookup_empty.
Qed.

Section Again.
Variable w : world.
Variable av_cfg : AvConfig.
Variable earliest_date : string.

(** A loop none of whose iterations sets the flag leaves the state. *)
Lemma for_tickers_quiet tickers : ∀ i st,
  (∀ k sym, tickers !! k = Some sym →
     ∃ av_json incoming,
       fetch_daily_adjusted w (i + k) sym av_cfg = Ok av_json ∧
       extract_adjusted_close_series (i + k) av_json earliest_date = Ok incoming ∧
       dict_ne (merge_series (dict_get (current_series st) sym ∅) incoming)
               (dict_get (current_series st) sym ∅) = false) →
  for_tickers w av_cfg earliest_date i tickers st = (paced tickers, Ok st).
Proof.
  induction tickers as [| sym rest IH]; intros i st Hall; [done |].
  simpl. destruct (Hall 0%nat sym eq_refl) as (j & inc & Hj & Hinc & Hne).
  rewrite Nat.add_0_r in Hj, Hinc.
  unfold process_ticker. rewrite Hj, Hinc, Hne.
  rewrite (IH (S i) st); [done |].
  intros k s Hk. replace (S i + k)%nat with (i + S k)%nat by lia. by apply Hall.
Qed.

(** A loop that sets no flag leaves the series. *)
Lemma for_tickers_flag_false tickers : ∀ i st evs st',
  for_tickers w av_cfg earliest_date i tickers st = (evs, Ok st') →
  updated_any st' = false → st' = st.
Proof.
  induction tickers as [| sym rest IH]; intros i st evs st' H Hflag.
  { simpl in H. by injection H as _ <-. }
  simpl in H.
  destruct (process_ticker w av_cfg earliest_date i sym st) as [e1 [st1 | e]] eqn:Hstep;
    [| simpl in H; discriminate].
  destruct (for_tickers w av_cfg earliest_date (S i) rest st1) as [e2 r2] eqn:Hrest.
  injection H as _ ->. rewrite (IH _ _ _ _ Hrest Hflag) in Hflag |- *.
  apply process_ticker_ok in Hstep as (_ & j & inc & _ & _ & Hst1). simpl in Hst1.
  destruct (dict_ne _ _); [by subst st1 | done].
Qed.

(** After a loop over distinct tickers, started on loaded objects, every
    point that was extracted for a ticker is in its series, as the object
    extracted or one that is equal in value. *)
Lemma for_tickers_absorbs tickers : ∀ i st evs st',
  NoDup tickers →
  (∀ sym x d o, sym ∈ tickers → current_series st !! sym = Some x → x !! d = Some o →
                fid o = OnLoad sym d) →
  for_tickers w av_cfg earliest_date i tickers st = (evs, Ok st') →
  ∀ k sym, tickers !! k = Some sym →
    ∃ av_json incoming,
      fetch_daily_adjusted w (i + k) sym av_cfg = Ok av_json ∧
      extract_adjusted_close_series (i + k) av_json earliest_date = Ok incoming ∧
      ∀ d v, incoming !! d = Some v →
        ∃ x u, current_series st' !! sym = Some x ∧ x !! d = Some u ∧
               (u = v ∨ SFeqb (fval v) (fval u) = true).
Proof.
  induction tickers as [| s0 rest IH]; intros i st evs st' Hnd Hfid H k sym Hk;
    [done |].
  apply NoDup_cons in Hnd as [Hfresh Hnd]. simpl in H.
  destruct (process_ticker w av_cfg earliest_date i s0 st) as [e1 [st1 | e]] eqn:Hstep;
    [| simpl in H; discriminate].
  destruct (for_tickers w av_cfg earliest_date (S i) rest st1) as [e2 r2] eqn:Hrest.
  injection H as _ ->.
  pose proof (process_ticker_ok _ _ _ _ _ _ _ _ Hstep) as (_ & j & inc & Hj & Hinc & Hst1).
  simpl in Hst1.
  destruct k as [| k]; simpl in Hk.
  - injection Hk as <-. rewrite Nat.add_0_r. exists j, inc. split; [done | split; [done |]].
    intros d v Hv.
    destruct (for_tickers_keeps _ _ _ _ _ _ _ _ Hrest) as [Hkeep _].
    rewrite (Hkeep s0 Hfresh).
    destruct (dict_ne _ _) eqn:Hne; subst st1; simpl.
    + rewrite lookup_insert_eq. eexists _, v. split; [done |].
      split; [by rewrite merge_series_lookup, Hv | by left].
    + apply merge_unchanged_iff in Hne. specialize (Hne d v Hv). simpl in Hne.
      unfold dict_get in Hne.
      destruct (current_series st !! s0) as [x |] eqn:Hx; simpl in Hne;
        [| by rewrite lookup_empty in Hne].
      destruct (x !! d) as [u |] eqn:Hu; [| done].
      exists x, u. split; [done | split; [done |]]. right.
      unfold obj_eq in Hne.
      rewrite (extract_fid _ _ _ _ _ _ Hinc Hv) in Hne.
      rewrite (Hfid s0 x d u (list_elem_of_here _ _) Hx Hu) in Hne.
      by rewrite bool_decide_eq_false_2 in Hne.
  - replace (i + S k)%nat with (S i + k)%nat by lia.
    apply (IH (S i) st1 e2 st' Hnd); [| done | done].
    intros s x d o Hs Hx Ho. apply (Hfid s x d o); [by apply list_elem_of_further | | done].
    assert (Hne : s0 ≠ s) by (by intros ->).
    destruct (dict_ne _ _); subst st1; [| done].
    simpl in Hx. by rewrite lookup_insert_ne in Hx.
Qed.
End Again.

(** The file a run leaves holds the series the loop ended with. *)
Lemma main_ok_series (w : world) (cfg : config) (f : document float) st :
  for_tickers w (av_config_of w) (earliest_date_of cfg) 1 (tickers_of cfg)
              (initial_state w) = (paced (tickers_of cfg), Ok st) →
  main w = persist w cfg (paced (tickers_of cfg)) st →
  prices_after (main w) = Some f →
  default ∅ (series f) = dump_all (current_series st).
Proof.
  intros Hloop Hmain Hafter. rewrite Hmain in Hafter. unfold persist in Hafter.
  assert (Hkept : updated_any st = false → prices_file w = Some f →
                  default ∅ (series f) = dump_all (current_series st)).
  { intros Hflag Hf.
    rewrite (for_tickers_flag_false _ _ _ _ _ _ _ _ Hloop Hflag).
    unfold initial_state, current_of. rewrite Hf. simpl.
    destruct (series f); simpl; [by rewrite dump_load_all | done]. }
  destruct (updated_any st) eqn:Hflag.
  - simpl in Hafter. by injection Hafter as <-.
  - destruct (prices_file w) as [f0 |] eqn:Hf0; simpl in Hafter.
    + injection Hafter as ->. by apply Hkept.
    + by injection Hafter as <-.
Qed.

(** X14. After a run over distinct tickers that ends normally, every point
    extracted from a response is on file under its ticker and date, with
    the extracted value or, where the flag was not raised, the equal value
    that was there. *)
Theorem fetched_points_are_on_file (w : world) (cfg : config) (f : document float)
    (k : nat) (sym : string) :
  config_file w = Some cfg →
  NoDup (tickers_of cfg) →
  outcome (main w) = Ok 0 →
  prices_after (main w) = Some f →
  tickers_of cfg !! k = Some sym →
  ∃ av_json incoming,
    fetch_daily_adjusted w (S k) sym (av_config_of w) = Ok av_json ∧
    extract_adjusted_close_series (S k) av_json (earliest_date_of cfg) = Ok incoming ∧
    ∀ d v, incoming !! d = Some v →
      ∃ x u, default ∅ (series f) !! sym = Some x ∧ x !! d = Some u ∧
             (u = fval v ∨ SFeqb (fval v) u = true).
Proof.
  intros Hcfg Hnd Hok Hafter Hk.
  destruct (main_ok_inv w cfg 0 Hcfg Hok) as (st & Hloop & Hmain).
  rewrite (main_ok_series w cfg f st Hloop Hmain Hafter).
  destruct (for_tickers_absorbs _ _ _ _ _ _ _ _ Hnd
              (fun s x d o _ => initial_state_fid w s x d o) Hloop k sym Hk)
    as (j & inc & Hj & Hinc & Habs).
  exists j, inc. split; [done | split; [done |]]. intros d v Hv.
  destruct (Habs d v Hv) as (x & u & Hx & Hu & Hsame).
  exists (dump_series x), (fval u). rewrite lookup_dump_all, Hx, lookup_dump_series, Hu.
  split; [done | split; [done |]]. destruct Hsame as [-> | Heq]; [by left | by right].
Qed.

(** X15. Running again on the file a run has left, with the same
    configuration, key and provider answers, changes nothing: provided the
    tickers are distinct and the file holds no NaN, the second run fetches
    and pauses as the first did, writes nothing and leaves the file. *)
Theorem second_run_writes_nothing (w w2 : world) (cfg : config) (f : document float) :
  config_file w = Some cfg →
  NoDup (tickers_of cfg) →
  outcome (main w) = Ok 0 →
  prices_after (main w) = Some f →
  nan_free f = true →
  config_file w2 = Some cfg →
  environ_api_key w2 = environ_api_key w →
  provider w2 = provider w →
  prices_file w2 = Some f →
  main w2 = {| outcome := Ok 0; trace := paced (tickers_of cfg); prices_after := Some f |}.
Proof.
  intros Hcfg Hnd Hok Hafter Hfree Hcfg2 Henv Hprov Hfile2.
  destruct (main_ok_inv w cfg 0 Hcfg Hok) as (st1 & Hloop & Hmain).
  pose proof (main_ok_series w cfg f st1 Hloop Hmain Hafter) as Hseries.
  assert (Hkey : av_key_of w2 = av_key_of w) by (unfold av_key_of; by rewrite Henv).
  assert (Hav : av_config_of w2 = av_config_of w) by (unfold av_config_of; by rewrite Hkey).
  assert (Hinit2 : current_series (initial_state w2) = load_all (default ∅ (series f))).
  { unfold initial_state, current_of. rewrite Hfile2. simpl. by destruct (series f). }
  assert (Htk : tickers_of cfg ≠ []).
  { intros Hnil. revert Hok. unfold main. rewrite Hcfg, Hnil.
    destruct (String.eqb _ _); discriminate. }
  assert (Hkey1 : av_key_of w ≠ "").
  { intros Hnil. revert Hok. unfold main. rewrite Hcfg, Hnil. discriminate. }
  rewrite (main_loop w2 cfg Hcfg2) by (by rewrite ?Hkey).
  rewrite (for_tickers_quiet w2 _ _ (tickers_of cfg) 1 (initial_state w2)).
  { unfold persist. simpl. by rewrite Hfile2. }
  intros k sym Hk.
  destruct (for_tickers_absorbs _ _ _ _ _ _ _ _ Hnd
              (fun s x d o _ => initial_state_fid w s x d o) Hloop k sym Hk)
    as (j & inc & Hj & Hinc & Habs).
  exists j, inc. rewrite Hav. split; [| split; [done |]].
  { revert Hj. unfold fetch_daily_adjusted. by rewrite Hprov. }
  rewrite Hinit2. apply merge_unchanged_iff. intros d v Hv. simpl.
  destruct (Habs d v Hv) as (x & u & Hx & Hu & Hsame).
  unfold dict_get. rewrite lookup_load_all, Hseries, lookup_dump_all, Hx.
  simpl. rewrite lookup_load_series, lookup_dump_series, Hu. simpl.
  unfold obj_eq. simpl. rewrite (extract_fid _ _ _ _ _ _ Hinc Hv).
  rewrite bool_decide_eq_false_2 by discriminate. simpl.
  destruct Hsame as [-> | Heq]; [| done].
  apply SFeqb_refl.
  destruct (series f) as [m |] eqn:Hm; simpl in Hseries.
  - apply (nan_free_lookup f m sym (dump_series x) d (fval v) Hfree Hm).
    + by rewrite Hseries, lookup_dump_all, Hx.
    + by rewrite lookup_dump_series, Hu.
  - assert (Hnone : dump_all (current_series st1) !! sym = None)
      by (by rewrite <- Hseries).
    by rewrite lookup_dump_all, Hx in Hnone.
Qed.

(** ** The further properties on sample inputs *)

(** X5 on [list_field_response]. *)
Lemma extract_raises_only_witness :
  (TypeError = KeyError TIME_SERIES_KEY ∧ list_field_response !! TIME_SERIES_KEY = None) ∨
  (is_Some (list_field_response !! TIME_SERIES_KEY) ∧
   (TypeError = AttributeError ∨ TypeError = TypeError ∨ TypeError = OverflowError)).
Proof.
  apply (extract_raises_only 1 list_field_response "2025-07-01" TypeError). reflexivity.
Defined.

(** X7 in [failing_world]. *)
Lemma failed_run_leaves_file_witness :
  prices_after (main failing_world) = prices_file failing_world ∧
  (∀ doc, EvWrite doc ∉ trace (main failing_world)) ∧
  (trace (main failing_world) = [] ∨
   ∃ cfg pre sym post,
     config_file failing_world = Some cfg ∧ tickers_of cfg = pre ++ sym :: post ∧
     trace (main failing_world) = paced pre ++ [EvFetch sym]).
Proof.
  apply (failed_run_leaves_file failing_world
           (RuntimeError (AvError "QQQ" (JStr "Invalid API call.")))).
  vm_compute. reflexivity.
Defined.


(** X10: [strict_world] and [sample_world] differ only in requests that are
    never made. *)
Lemma main_asks_one_request_per_ticker_witness : main strict_world = main sample_world.
Proof.
  apply (main_asks_one_request_per_ticker sample_world strict_world sample_config);
    reflexivity.
Defined.

(** X11 in [growing_world]. *)
Lemma written_document_keeps_prior_witness :
  ∃ m,
    series growing_written = Some m ∧
    (∀ sym, sym ∉ tickers_of (default sample_config (config_file growing_world)) →
            m !! sym = default ∅ (series (default growing_written (prices_file growing_world)))
                       !! sym) ∧
    (∀ sym x d,
       default ∅ (series (default growing_written (prices_file growing_world))) !! sym
       = Some x →
       is_Some (x !! d) → ∃ x', m !! sym = Some x' ∧ is_Some (x' !! d)) ∧
    (∀ k, k ∉ ["generated_utc"; "provider"; "endpoint"; "field"; "earliest_date"] →
          fields growing_written !! k
          = fields (default growing_written (prices_file growing_world)) !! k).
Proof.
  apply (written_document_keeps_prior growing_world
           (default sample_config (config_file growing_world))
           (default growing_written (prices_file growing_world)) growing_written);
    [reflexivity | reflexivity |].
  vm_compute. do 2 apply list_elem_of_further. apply list_elem_of_here.
Defined.

(** X12 on the point of SPY that [growing_world] gains on 2025-07-01. *)
Lemma written_points_are_prior_or_fresh_witness :
  (∃ f m0 x0, prices_file growing_world = Some f ∧ series f = Some m0 ∧
              m0 !! "SPY" = Some x0 ∧
              x0 !! "2025-07-01" = Some (S754_finite false 5629499534213120 (-49))) ∨
  ("SPY" ∈ tickers_of (default sample_config (config_file growing_world)) ∧
   String.ltb "2025-07-01"
              (earliest_date_of (default sample_config (config_file growing_world)))
   = false).
Proof.
  apply (written_points_are_prior_or_fresh growing_world
           (default sample_config (config_file growing_world)) growing_written
           (default ∅ (series growing_written))
           "SPY"
           (default ∅ (default ∅ (series growing_written) !! "SPY"))
           "2025-07-01" (S754_finite false 5629499534213120 (-49)));
    [reflexivity | | vm_compute; reflexivity | vm_compute; reflexivity
     | vm_compute; reflexivity].
  vm_compute. do 2 apply list_elem_of_further. apply list_elem_of_here.
Defined.

(** X13 on [sample_response], the cutoff moved by one day. *)
Lemma later_cutoff_only_trims_witness :
  ∃ out2,
    extract_adjusted_close_series 1 sample_response "2025-07-02" = Ok out2 ∧
    ∀ d, out2 !! d =
         if String.ltb d "2025-07-02" then None
         else (<["2025-07-01" := PyFloat (OnFetch 1 "2025-07-01")
                                         (S754_finite false 5629499534213120 (-49))]>
               ({[ "2025-07-02" := PyFloat (OnFetch 1 "2025-07-02")
                                           (S754_finite false 5910974510923776 (-49)) ]}
                : Series)) !! d.
Proof.
  apply (later_cutoff_only_trims 1 sample_response "2025-07-01" "2025-07-02");
    vm_compute; reflexivity.
Defined.

(** X15: [second_world] runs on the file [sample_world] left. *)
Lemma second_run_writes_nothing_witness :
  main second_world =
  {| outcome := Ok 0; trace := paced (tickers_of sample_config);
     prices_after := Some sample_written |}.
Proof.
  apply (second_run_writes_nothing sample_world second_world sample_config sample_written);
    first [ vm_compute; reflexivity
          | apply (bool_decide_unpack _); vm_compute; exact I ].
Defined.

(** X14 on the first ticker of [sample_world]. *)
Lemma fetched_points_are_on_file_witness :
  ∃ av_json incoming,
    fetch_daily_adjusted sample_world 1 "SPY" (av_config_of sample_world) = Ok av_json ∧
    extract_adjusted_close_series 1 av_json (earliest_date_of sample_config) = Ok incoming ∧
    ∀ d v, incoming !! d = Some v →
      ∃ x u, default ∅ (series sample_written) !! "SPY" = Some x ∧ x !! d = Some u ∧
             (u = fval v ∨ SFeqb (fval v) u = true).
Proof.
  apply (fetched_points_are_on_file sample_world sample_config sample_written 0 "SPY");
    first [ vm_compute; reflexivity
          | apply (bool_decide_unpack _); vm_compute; exact I ].
Defined.
